(** * ChromaBiz backend: quota tracking, response extraction, fallback catalog

    A shallow embedding of [backend/server.py] and the properties of its
    quota tracker ([check_rate_limit], [get_remaining_limits]), of the
    extraction of palettes from the model's reply ([parse_palette_response]),
    of the fallback catalog ([generate_fallback_palettes]) and of the two
    request handlers ([generate_palettes], [chat_with_ai]).

    Conventions of the embedding:
    - a [datetime] is the number of microseconds since the epoch, in [Z];
      [timedelta(days=1)] is [one_day];
    - [rate_limits], the module-level dict, is a [gmap string user_limits]
      passed in and out of every function that touches it;
    - [uuid.uuid4()] is an oracle [uuid4 : nat -> string] together with the
      number of identifiers drawn so far;
    - a Python exception is a value of [exn]; a function that can raise
      returns [exn + A];
    - the limits of the interpreter that [json.loads] can run into (the
      number of digits of an int, the depth of recursion) are a value of
      [limits], given to every function that decodes;
    - text is a [string] of bytes (the UTF-8 encoding of the Python [str]). *)

From Stdlib Require Import String Ascii ZArith List Lia Bool.
From stdpp Require Import base option strings pretty gmap.

Import ListNotations.
Set Warnings "-register-all".
Set Default Proof Using "Type".
Open Scope string_scope.
Open Scope Z_scope.

(** ** Quota tracker *)

Module Quota.

(** The per-client dict [{"generations", "revisions", "reset_time"}]. *)
Record user_limits := mk_limits {
  generations : Z;
  revisions : Z;
  reset_time : Z
}.

(** [timedelta(days=1)], in microseconds. *)
Definition one_day : Z := 86400 * 1000000.

(** The record written for a client on first sight and at a reset. *)
Definition fresh_limits (now : Z) : user_limits :=
  {| generations := 1; revisions := 3; reset_time := now + one_day |}.

(** [check_rate_limit(ip, limit_type)], with [now] the value read from the
    clock and [rl] the dict [rate_limits]; returns [(allowed, remaining)]
    and the dict after the call. *)
Definition check_rate_limit (now : Z) (ip limit_type : string)
    (rl : gmap string user_limits) : (bool * Z) * gmap string user_limits :=
  (* if ip not in rate_limits: rate_limits[ip] = {...} *)
  let rl1 :=
    match rl !! ip with
    | None => <[ip := fresh_limits now]> rl
    | Some _ => rl
    end in
  (* user_limits = rate_limits[ip] *)
  let ul := default (fresh_limits now) (rl1 !! ip) in
  (* if now >= user_limits["reset_time"]: three assignments on the record *)
  let '(ul2, rl2) :=
    if now >=? reset_time ul
    then (fresh_limits now, <[ip := fresh_limits now]> rl1)
    else (ul, rl1) in
  if String.eqb limit_type "generation" then
    if generations ul2 <=? 0 then ((false, 0), rl2)
    else
      let ul3 := {| generations := generations ul2 - 1;
                    revisions := revisions ul2;
                    reset_time := reset_time ul2 |} in
      ((true, generations ul3), <[ip := ul3]> rl2)
  else if String.eqb limit_type "revision" then
    if revisions ul2 <=? 0 then ((false, 0), rl2)
    else
      let ul3 := {| generations := generations ul2;
                    revisions := revisions ul2 - 1;
                    reset_time := reset_time ul2 |} in
      ((true, revisions ul3), <[ip := ul3]> rl2)
  else ((false, 0), rl2).

(** The dict returned by [get_remaining_limits]; [reset_time] is kept as the
    [datetime] whose [isoformat()] the code returns. *)
Record limits_status := mk_status {
  generations_remaining : Z;
  revisions_remaining : Z;
  status_reset_time : Z
}.

(** [get_remaining_limits(ip)]; the dict after the call is returned next to
    the result, as for [check_rate_limit]. *)
Definition get_remaining_limits (now : Z) (ip : string)
    (rl : gmap string user_limits) : limits_status * gmap string user_limits :=
  match rl !! ip with
  | None =>
      ({| generations_remaining := 1; revisions_remaining := 3;
          status_reset_time := now + one_day |}, rl)
  | Some ul =>
      if now >=? reset_time ul then
        ({| generations_remaining := 1; revisions_remaining := 3;
            status_reset_time := now + one_day |}, rl)
      else
        ({| generations_remaining := generations ul;
            revisions_remaining := revisions ul;
            status_reset_time := reset_time ul |}, rl)
  end.

(** A quota operation, as a client of the tracker issues them. *)
Inductive quota_op :=
| OpCheck (now : Z) (ip limit_type : string)
| OpStatus (now : Z) (ip : string).

Definition run_op (op : quota_op) (rl : gmap string user_limits)
    : gmap string user_limits :=
  match op with
  | OpCheck now ip lt => snd (check_rate_limit now ip lt rl)
  | OpStatus now ip => snd (get_remaining_limits now ip rl)
  end.

Definition run_ops (ops : list quota_op) (rl : gmap string user_limits)
    : gmap string user_limits :=
  fold_left (fun m op => run_op op m) ops rl.

(** The record [check_rate_limit] works on once the lazy creation and the
    lazy reset are done. *)
Definition effective_limits (now : Z) (ip : string)
    (rl : gmap string user_limits) : user_limits :=
  match rl !! ip with
  | None => fresh_limits now
  | Some ul => if now >=? reset_time ul then fresh_limits now else ul
  end.

(** The counter an action meters. *)
Inductive action := Generation | Revision.

Definition action_name (a : action) : string :=
  match a with Generation => "generation" | Revision => "revision" end.

Definition counter (a : action) (ul : user_limits) : Z :=
  match a with Generation => generations ul | Revision => revisions ul end.

Definition decrement (a : action) (ul : user_limits) : user_limits :=
  match a with
  | Generation => {| generations := generations ul - 1;
                     revisions := revisions ul;
                     reset_time := reset_time ul |}
  | Revision => {| generations := generations ul;
                   revisions := revisions ul - 1;
                   reset_time := reset_time ul |}
  end.

(** The data-model invariant of a stored record. *)
Definition limits_ok (ul : user_limits) : Prop :=
  0 <= generations ul <= 1 /\ 0 <= revisions ul <= 3.

Definition store_ok (rl : gmap string user_limits) : Prop :=
  forall ip ul, rl !! ip = Some ul -> limits_ok ul.

End Quota.

(** ** JSON values and [json.loads] *)

Module Json.

Open Scope list_scope.

(** A value as [json.loads] builds it: [None], [bool], [int], [float] (kept
    as the text of its literal), [str], [list] and [dict].  A [dict] is the
    list of its items in insertion order, each key once. *)
Inductive json :=
| JNull
| JBool (b : bool)
| JInt (n : Z)
| JFloat (lexeme : string)
| JStr (s : string)
| JArr (items : list json)
| JObj (items : list (string * json)).

(** [d[k] = v] on an insertion-ordered dict. *)
Fixpoint dict_set (d : list (string * json)) (k : string) (v : json)
    : list (string * json) :=
  match d with
  | [] => [(k, v)]
  | (k', v') :: d' =>
      if String.eqb k' k then (k', v) :: d' else (k', v') :: dict_set d' k v
  end.

(** [dict(pairs)]. *)
Definition dict_of_pairs (pairs : list (string * json)) : list (string * json) :=
  fold_left (fun d kv => dict_set d (fst kv) (snd kv)) pairs [].

(** Lookup of a key; [None] when the key is absent. *)
Fixpoint dict_lookup (d : list (string * json)) (k : string) : option json :=
  match d with
  | [] => None
  | (k', v) :: d' => if String.eqb k' k then Some v else dict_lookup d' k
  end.

(** [d.get(k, dflt)]. *)
Definition dict_get (d : list (string * json)) (k : string) (dflt : json) : json :=
  default dflt (dict_lookup d k).

(** The exceptions the code lets through to its caller: a [.get] on a value
    that is not a dict, a [for] over a value that is not iterable, a field
    that pydantic refuses; and the two that [json.loads] raises besides
    [json.JSONDecodeError]: the conversion of an int literal with more
    digits than the interpreter converts, and containers nested deeper than
    the interpreter recurses. *)
Inductive exn :=
| AttributeError
| TypeError
| ValidationError
| ValueError
| RecursionError.

(** The limits of the interpreter at a call of [json.loads]:
    [sys.get_int_max_str_digits()] (4300 unless set otherwise; 0 when the
    limit is off, and never between 1 and 639), and the number of
    containers, one inside the other, that the scanner can still enter
    before the recursion limit is reached. *)
Record limits := mk_limits {
  max_str_digits : nat;
  recursion_left : nat
}.

(** The outcome of a scanning function: the value and the text after it,
    a [json.JSONDecodeError], another exception, or the budget of the model
    used up. *)
Inductive parse_result (A : Type) :=
| Parsed (a : A) (rest : string)
| DecodeError
| Raised (e : exn)
| OutOfFuel.
Arguments Parsed {A} a rest.
Arguments DecodeError {A}.
Arguments Raised {A} e.
Arguments OutOfFuel {A}.

Definition map_result {A B} (f : A -> B) (r : parse_result A) : parse_result B :=
  match r with
  | Parsed a rest => Parsed (f a) rest
  | DecodeError => DecodeError
  | Raised e => Raised e
  | OutOfFuel => OutOfFuel
  end.

Definition dquote : ascii := "034"%char.
Definition backslash : ascii := "\"%char.

(** The decoder's whitespace: space, tab, line feed, carriage return. *)
Definition is_ws (c : ascii) : bool :=
  Ascii.eqb c " " || Ascii.eqb c "009" || Ascii.eqb c "010" || Ascii.eqb c "013".

Fixpoint skip_ws (s : string) : string :=
  match s with
  | String c rest => if is_ws c then skip_ws rest else s
  | EmptyString => s
  end.

Definition is_digit (c : ascii) : bool :=
  (48 <=? N_of_ascii c)%N && (N_of_ascii c <=? 57)%N.

Definition digit_value (c : ascii) : Z := Z.of_N (N_of_ascii c) - 48.

(** The longest prefix of decimal digits, and what follows it. *)
Fixpoint span_digits (s : string) : string * string :=
  match s with
  | String c rest =>
      if is_digit c then
        let '(ds, r) := span_digits rest in (String c ds, r)
      else (EmptyString, s)
  | EmptyString => (EmptyString, EmptyString)
  end.

(** [int(ds)] for a string of decimal digits. *)
Definition Z_of_digits (ds : string) : Z :=
  fold_left (fun acc c => 10 * acc + digit_value c) (list_ascii_of_string ds) 0.

(** [int(integer)] for the integer part of a number, [digits] being its
    digits and [neg] its sign: [ValueError] when the limit on the digits of
    an int is on and the text has more digits. *)
Definition parse_int (lim : limits) (neg : bool) (digits : string) : exn + Z :=
  if ((0 <? max_str_digits lim) && (max_str_digits lim <? String.length digits))%nat
  then inl ValueError
  else inr (if neg then - Z_of_digits digits else Z_of_digits digits).

(** [NUMBER_RE.match]: an optional minus sign, then either a single 0 or a
    non-zero digit followed by digits; an optional fraction (a dot and one or
    more digits); an optional exponent (e or E, an optional sign, one or more
    digits).  The value is [int(integer)] when there is neither fraction nor
    exponent and [float(integer + frac + exp)] otherwise; [None] when there
    is no match. *)
Definition match_integer (s : string) : option (string * string) :=
  match s with
  | String c rest =>
      if Ascii.eqb c "0" then Some ("0", rest)
      else if is_digit c then
        let '(ds, r) := span_digits rest in Some (String c ds, r)
      else None
  | EmptyString => None
  end.

Definition match_frac (s : string) : string * string :=
  match s with
  | String c rest =>
      if Ascii.eqb c "." then
        match span_digits rest with
        | (EmptyString, _) => (EmptyString, s)
        | (ds, r) => (String c ds, r)
        end
      else (EmptyString, s)
  | EmptyString => (EmptyString, s)
  end.

Definition match_exp (s : string) : string * string :=
  match s with
  | String c rest =>
      if Ascii.eqb c "e" || Ascii.eqb c "E" then
        let '(sign, rest1) :=
          match rest with
          | String c1 r1 =>
              if Ascii.eqb c1 "-" || Ascii.eqb c1 "+"
              then (String c1 EmptyString, r1) else (EmptyString, rest)
          | EmptyString => (EmptyString, rest)
          end in
        match span_digits rest1 with
        | (EmptyString, _) => (EmptyString, s)
        | (ds, r) => (String c (sign +:+ ds), r)
        end
      else (EmptyString, s)
  | EmptyString => (EmptyString, s)
  end.

Definition match_number (lim : limits) (s : string)
    : option ((exn + json) * string) :=
  let '(neg, s1) :=
    match s with
    | String c r => if Ascii.eqb c "-" then (true, r) else (false, s)
    | EmptyString => (false, s)
    end in
  match match_integer s1 with
  | None => None
  | Some (int_part, s2) =>
      let '(frac, s3) := match_frac s2 in
      let '(exp, s4) := match_exp s3 in
      match frac, exp with
      | EmptyString, EmptyString =>
          Some (match parse_int lim neg int_part with
                | inr n => inr (JInt n)
                | inl e => inl e
                end, s4)
      | _, _ =>
          Some (inr (JFloat ((if neg then "-" else "") +:+ int_part +:+ frac +:+ exp)), s4)
      end
  end.

(** [s.startswith(lit)], returning the text after [lit]. *)
Fixpoint strip_prefix (lit s : string) : option string :=
  match lit, s with
  | EmptyString, _ => Some s
  | String a lit', String b s' => if Ascii.eqb a b then strip_prefix lit' s' else None
  | String _ _, EmptyString => None
  end.

(** The UTF-8 bytes of [chr(cp)] (three bytes for a lone surrogate too). *)
Definition utf8 (cp : N) : string :=
  let byte (n : N) := ascii_of_N n in
  let cont (n : N) := byte (128 + n mod 64)%N in
  if (cp <? 128)%N then String (byte cp) EmptyString
  else if (cp <? 2048)%N then
    String (byte (192 + cp / 64)%N) (String (cont cp) EmptyString)
  else if (cp <? 65536)%N then
    String (byte (224 + cp / 4096)%N)
      (String (cont (cp / 64)%N) (String (cont cp) EmptyString))
  else
    String (byte (240 + cp / 262144)%N)
      (String (cont (cp / 4096)%N)
         (String (cont (cp / 64)%N) (String (cont cp) EmptyString))).

Definition hex_value (c : ascii) : option N :=
  let n := N_of_ascii c in
  if (48 <=? n)%N && (n <=? 57)%N then Some (n - 48)%N
  else if (65 <=? n)%N && (n <=? 70)%N then Some (n - 55)%N
  else if (97 <=? n)%N && (n <=? 102)%N then Some (n - 87)%N
  else None.

(** [_decode_uXXXX]: four hexadecimal digits. *)
Definition decode_uXXXX (s : string) : option (N * string) :=
  match s with
  | String a (String b (String c (String d rest))) =>
      match hex_value a, hex_value b, hex_value c, hex_value d with
      | Some x, Some y, Some z, Some w =>
          Some (((x * 16 + y) * 16 + z) * 16 + w, rest)%N
      | _, _, _, _ => None
      end
  | _ => None
  end.

(** The table [BACKSLASH] of one-character escapes. *)
Definition unescape (c : ascii) : option ascii :=
  if Ascii.eqb c dquote then Some dquote
  else if Ascii.eqb c backslash then Some backslash
  else if Ascii.eqb c "/" then Some "/"%char
  else if Ascii.eqb c "b" then Some "008"%char
  else if Ascii.eqb c "f" then Some "012"%char
  else if Ascii.eqb c "n" then Some "010"%char
  else if Ascii.eqb c "r" then Some "013"%char
  else if Ascii.eqb c "t" then Some "009"%char
  else None.

Definition is_high_surrogate (u : N) : bool := (55296 <=? u)%N && (u <=? 56319)%N.
Definition is_low_surrogate (u : N) : bool := (56320 <=? u)%N && (u <=? 57343)%N.

(** [scanstring(s, end)] in strict mode, [s] being the text after the
    opening quote. *)
Fixpoint scanstring (fuel : nat) (s : string) : parse_result string :=
  match fuel with
  | O => OutOfFuel
  | S fuel' =>
      match s with
      | EmptyString => DecodeError
      | String c rest =>
          if Ascii.eqb c dquote then Parsed EmptyString rest
          else if Ascii.eqb c backslash then
            match rest with
            | EmptyString => DecodeError
            | String esc rest1 =>
                if Ascii.eqb esc "u" then
                  match decode_uXXXX rest1 with
                  | None => DecodeError
                  | Some (uni, rest2) =>
                      let single :=
                        map_result (String.append (utf8 uni)) (scanstring fuel' rest2) in
                      if is_high_surrogate uni then
                        match strip_prefix (String backslash "u") rest2 with
                        | Some rest3 =>
                            match decode_uXXXX rest3 with
                            | None => DecodeError
                            | Some (uni2, rest4) =>
                                if is_low_surrogate uni2 then
                                  map_result
                                    (String.append
                                       (utf8 (65536 + ((uni - 55296) * 1024 + (uni2 - 56320)))%N))
                                    (scanstring fuel' rest4)
                                else single
                            end
                        | None => single
                        end
                      else single
                  end
                else
                  match unescape esc with
                  | None => DecodeError
                  | Some ch => map_result (String ch) (scanstring fuel' rest1)
                  end
            end
          else if (N_of_ascii c <? 32)%N then DecodeError
          else map_result (String c) (scanstring fuel' rest)
      end
  end.

(** [scan_once], [JSONArray] and [JSONObject] of the decoder.  [scan_once]
    is given the text at the value; [array_loop] the text at an element;
    [object_loop] the text after the opening quote of a key.  [depth] is
    the number of containers that can still be entered: the scanner checks
    it at every opening brace and bracket, before it looks inside. *)
Fixpoint scan_once (lim : limits) (fuel depth : nat) (s : string) {struct fuel}
    : parse_result json :=
  match fuel with
  | O => OutOfFuel
  | S fuel' =>
      match s with
      | EmptyString => DecodeError
      | String c rest =>
          if Ascii.eqb c dquote then map_result JStr (scanstring fuel' rest)
          else if Ascii.eqb c "{" then
            match depth with
            | O => Raised RecursionError
            | S depth' =>
                let object_at (t : string) :=
                  match t with
                  | String c1 t1 =>
                      if Ascii.eqb c1 "}" then Parsed (JObj []) t1
                      else if Ascii.eqb c1 dquote then
                        map_result (fun pairs => JObj (dict_of_pairs pairs))
                                   (object_loop lim fuel' depth' t1)
                      else DecodeError
                  | EmptyString => DecodeError
                  end in
                match rest with
                | String c1 t1 =>
                    if Ascii.eqb c1 dquote then
                      map_result (fun pairs => JObj (dict_of_pairs pairs))
                                 (object_loop lim fuel' depth' t1)
                    else object_at (skip_ws rest)
                | EmptyString => DecodeError
                end
            end
          else if Ascii.eqb c "[" then
            match depth with
            | O => Raised RecursionError
            | S depth' =>
                match skip_ws rest with
                | String c1 t1 =>
                    if Ascii.eqb c1 "]" then Parsed (JArr []) t1
                    else map_result JArr (array_loop lim fuel' depth' (String c1 t1))
                | EmptyString => map_result JArr (array_loop lim fuel' depth' EmptyString)
                end
            end
          else
            match strip_prefix "null" s, strip_prefix "true" s, strip_prefix "false" s with
            | Some t, _, _ => Parsed JNull t
            | None, Some t, _ => Parsed (JBool true) t
            | None, None, Some t => Parsed (JBool false) t
            | None, None, None =>
                match match_number lim s with
                | Some (inr v, t) => Parsed v t
                | Some (inl e, _) => Raised e
                | None =>
                    match strip_prefix "NaN" s, strip_prefix "Infinity" s,
                          strip_prefix "-Infinity" s with
                    | Some t, _, _ => Parsed (JFloat "NaN") t
                    | None, Some t, _ => Parsed (JFloat "Infinity") t
                    | None, None, Some t => Parsed (JFloat "-Infinity") t
                    | None, None, None => DecodeError
                    end
                end
            end
      end
  end

with array_loop (lim : limits) (fuel depth : nat) (s : string) {struct fuel}
    : parse_result (list json) :=
  match fuel with
  | O => OutOfFuel
  | S fuel' =>
      match scan_once lim fuel' depth s with
      | Parsed v r =>
          match skip_ws r with
          | String c t =>
              if Ascii.eqb c "]" then Parsed [v] t
              else if Ascii.eqb c "," then
                map_result (cons v) (array_loop lim fuel' depth (skip_ws t))
              else DecodeError
          | EmptyString => DecodeError
          end
      | DecodeError => DecodeError
      | Raised e => Raised e
      | OutOfFuel => OutOfFuel
      end
  end

with object_loop (lim : limits) (fuel depth : nat) (s : string) {struct fuel}
    : parse_result (list (string * json)) :=
  match fuel with
  | O => OutOfFuel
  | S fuel' =>
      match scanstring fuel' s with
      | Parsed key r =>
          match skip_ws r with
          | String c1 r1 =>
              if negb (Ascii.eqb c1 ":") then DecodeError else
              match scan_once lim fuel' depth (skip_ws r1) with
              | Parsed v r2 =>
                  match skip_ws r2 with
                  | String c r3 =>
                      if Ascii.eqb c "}" then Parsed [(key, v)] r3
                      else if Ascii.eqb c "," then
                        match skip_ws r3 with
                        | String c4 r4 =>
                            if Ascii.eqb c4 dquote then
                              map_result (cons (key, v)) (object_loop lim fuel' depth r4)
                            else DecodeError
                        | EmptyString => DecodeError
                        end
                      else DecodeError
                  | EmptyString => DecodeError
                  end
              | DecodeError => DecodeError
              | Raised e => Raised e
              | OutOfFuel => OutOfFuel
              end
          | EmptyString => DecodeError
          end
      | DecodeError => DecodeError
      | Raised e => Raised e
      | OutOfFuel => OutOfFuel
      end
  end.

(** The budget given to the decoder for a text: twice its length and one
    more, which the decoder never uses up ([scan_once_fuel]). *)
Definition fuel_for (s : string) : nat := S (2 * String.length s).

(** How [json.loads] ends: with the value, with [json.JSONDecodeError], or
    with another exception. *)
Inductive loads_result :=
| Decoded (v : json)
| JSONDecodeError
| Raises (e : exn).

(** [json.loads(s)] under the limits [lim]. *)
Definition json_loads (lim : limits) (s : string) : loads_result :=
  let s0 := skip_ws s in
  match scan_once lim (fuel_for s0) (recursion_left lim) s0 with
  | Parsed v rest =>
      match skip_ws rest with
      | EmptyString => Decoded v
      | String _ _ => JSONDecodeError
      end
  | DecodeError => JSONDecodeError
  | Raised e => Raises e
  | OutOfFuel => JSONDecodeError
  end.

(** What a scanning function owes for the text [s] it is given: it ends
    within its budget, and what it leaves is shorter than [s]. *)
Definition within_budget {A} (res : parse_result A) (s : string) : Prop :=
  res <> OutOfFuel
  /\ forall v r, res = Parsed v r -> (String.length r < String.length s)%nat.

(** Texts are written below with an apostrophe wherever they have a double
    quote. *)
Fixpoint q (s : string) : string :=
  match s with
  | String c rest => String (if Ascii.eqb c "'" then dquote else c) (q rest)
  | EmptyString => EmptyString
  end.

End Json.

(** ** Extraction of palettes from the model's reply *)

Module Extract.

Import Json.
Open Scope list_scope.

Record Color := mk_Color {
  color_hex : string;
  color_name : string;
  color_usage : string
}.

Record Palette := mk_Palette {
  palette_id : string;
  palette_name : string;
  palette_description : string;
  palette_colors : list Color;
  palette_psychology : string
}.

(** *** The two searches

    [re.search] returns the leftmost match, and [[\s\S]*] is greedy over
    every character: the array pattern matches from the first opening
    bracket to the last closing bracket of the text; the object pattern from
    the first opening brace to the last closing brace, when the quoted word
    palettes stands between them. *)

(** The suffix of [s] that starts at the first [c]. *)
Fixpoint from_first (c : ascii) (s : string) : option string :=
  match s with
  | EmptyString => None
  | String a rest => if Ascii.eqb a c then Some s else from_first c rest
  end.

(** The prefix of [s] that ends at the last [c]. *)
Fixpoint upto_last (c : ascii) (s : string) : option string :=
  match s with
  | EmptyString => None
  | String a rest =>
      match upto_last c rest with
      | Some p => Some (String a p)
      | None => if Ascii.eqb a c then Some (String a EmptyString) else None
      end
  end.

(** [pat in s]. *)
Fixpoint contains (pat s : string) : bool :=
  match strip_prefix pat s with
  | Some _ => true
  | None =>
      match s with
      | EmptyString => false
      | String _ rest => contains pat rest
      end
  end.

(** [c in s], for a character. *)
Fixpoint occurs (c : ascii) (s : string) : bool :=
  match s with
  | EmptyString => false
  | String a rest => Ascii.eqb a c || occurs c rest
  end.

(** [re.search(r'\[[\s\S]*\]', text)], then [.group()]. *)
Definition search_array (text : string) : option string :=
  match from_first "[" text with
  | Some t => upto_last "]" t
  | None => None
  end.

Definition palettes_token : string :=
  String dquote ("palettes" +:+ String dquote EmptyString).

(** [s[:-1]]. *)
Fixpoint drop_last (s : string) : string :=
  match s with
  | EmptyString => EmptyString
  | String _ EmptyString => EmptyString
  | String a rest => String a (drop_last rest)
  end.

(** [re.search(r'\{[\s\S]*"palettes"[\s\S]*\}', text)], then [.group()]. *)
Definition search_object (text : string) : option string :=
  match from_first "{" text with
  | Some t =>
      match upto_last "}" t with
      | Some (String b inner) =>
          if contains palettes_token (drop_last inner)
          then Some (String b inner) else None
      | _ => None
      end
  | None => None
  end.

(** *** Python operations on decoded values *)

(** [obj.get(key, dflt)]: only a dict has [get]. *)
Definition py_get (obj : json) (key : string) (dflt : json) : exn + json :=
  match obj with
  | JObj d => inr (dict_get d key dflt)
  | _ => inl AttributeError
  end.

Definition is_continuation (c : ascii) : bool :=
  (128 <=? N_of_ascii c)%N && (N_of_ascii c <? 192)%N.

(** The characters of a [str], each with all its bytes. *)
Fixpoint characters (s : string) : list string :=
  match s with
  | EmptyString => []
  | String c rest =>
      let starts_inside :=
        match rest with
        | String c' _ => is_continuation c'
        | EmptyString => false
        end in
      match characters rest with
      | x :: xs =>
          if starts_inside then String c x :: xs
          else String c EmptyString :: x :: xs
      | [] => [String c EmptyString]
      end
  end.

(** [iter(v)], run to the end: the elements of a list, the keys of a dict,
    the characters of a str; anything else is not iterable. *)
Definition py_iter (v : json) : exn + list json :=
  match v with
  | JArr items => inr items
  | JObj d => inr (map (fun kv => JStr (fst kv)) d)
  | JStr s => inr (map JStr (characters s))
  | JNull | JBool _ | JInt _ | JFloat _ => inl TypeError
  end.

(** pydantic on a field declared [str], for a value decoded from JSON. *)
Definition validate_str (v : json) : exn + string :=
  match v with
  | JStr s => inr s
  | _ => inl ValidationError
  end.

(** [Color(hex=h, name=n, usage=u)]. *)
Definition new_Color (h n u : json) : exn + Color :=
  match validate_str h, validate_str n, validate_str u with
  | inr h', inr n', inr u' =>
      inr {| color_hex := h'; color_name := n'; color_usage := u' |}
  | _, _, _ => inl ValidationError
  end.

(** The body of [for color in ...: colors.append(Color(...))]. *)
Fixpoint colors_loop (cs : list json) (colors : list Color) : exn + list Color :=
  match cs with
  | [] => inr colors
  | color :: cs' =>
      match py_get color "hex" (JStr "#000000") with
      | inl e => inl e
      | inr h =>
      match py_get color "name" (JStr "Unknown") with
      | inl e => inl e
      | inr n =>
      match py_get color "usage" (JStr "General") with
      | inl e => inl e
      | inr u =>
      match new_Color h n u with
      | inl e => inl e
      | inr c => colors_loop cs' (colors ++ [c])
      end end end end
  end.

(** The colours of one candidate palette:
    [colors = []; for color in item.get("colors", []): ...]. *)
Definition item_colors (item : json) : exn + list Color :=
  match py_get item "colors" (JArr []) with
  | inl e => inl e
  | inr cs =>
      match py_iter cs with
      | inl e => inl e
      | inr cs' => colors_loop cs' []
      end
  end.

(** A computation that draws identifiers and may raise: from the number of
    identifiers drawn so far to the outcome and the number drawn after. *)
Definition Gen (A : Type) : Type := nat -> (exn + A) * nat.

Definition ret {A} (a : A) : Gen A := fun n => (inr a, n).
Definition raise {A} (e : exn) : Gen A := fun n => (inl e, n).
Definition lift {A} (r : exn + A) : Gen A := fun n => (r, n).
Definition bind {A B} (m : Gen A) (k : A -> Gen B) : Gen B :=
  fun n =>
    match m n with
    | (inr a, n') => k a n'
    | (inl e, n') => (inl e, n')
    end.

Notation "'do' x <- m ; k" := (bind m (fun x => k))
  (at level 10, x name, m at level 100, k at level 200).

Section WithUuid.

(** [uuid4 k] is the identifier returned by the [k]-th call of
    [uuid.uuid4()] of the run. *)
Variable uuid4 : nat -> string.

(** The default factory of [Palette.id]. *)
Definition fresh_id : Gen string := fun n => (inr (uuid4 n), S n).

(** [Palette(name=nm, description=d, colors=colors, psychology=p)]: the id
    is drawn, then the fields are validated. *)
Definition new_Palette (nm d : json) (colors : list Color) (p : json) : Gen Palette :=
  do i <- fresh_id ;
  match validate_str nm, validate_str d, validate_str p with
  | inr nm', inr d', inr p' =>
      ret {| palette_id := i; palette_name := nm'; palette_description := d';
             palette_colors := colors; palette_psychology := p' |}
  | _, _, _ => raise ValidationError
  end.

(** One turn of [for item in ...]: the palette appended to [palettes]. *)
Definition item_palette (item : json) : Gen Palette :=
  do colors <- lift (item_colors item) ;
  do nm <- lift (py_get item "name" (JStr "Palette")) ;
  do d <- lift (py_get item "description" (JStr "")) ;
  do p <- lift (py_get item "psychology" (JStr "")) ;
  new_Palette nm d colors p.

Fixpoint palettes_loop (items : list json) (palettes : list Palette)
    : Gen (list Palette) :=
  match items with
  | [] => ret palettes
  | item :: items' =>
      do p <- item_palette item ;
      palettes_loop items' (palettes ++ [p])
  end.

(** The limits of the interpreter when the reply is decoded. *)
Variable lim : limits.

(** [parse_palette_response(response_text)].  An attempt is [None] when it
    is passed over: its search finds nothing, or [json.loads] raises
    [json.JSONDecodeError], the one exception that is caught. *)
Definition parse_palette_response (response_text : string) : Gen (list Palette) :=
  let palettes : list Palette := [] in
  let first_attempt : option (Gen (list Palette)) :=
    match search_array response_text with
    | Some json_match =>
        match json_loads lim json_match with
        | Decoded data =>
            Some (do items <- lift (py_iter data) ; palettes_loop items palettes)
        | JSONDecodeError => None
        | Raises e => Some (raise e)
        end
    | None => None
    end in
  match first_attempt with
  | Some run => run
  | None =>
      let second_attempt : option (Gen (list Palette)) :=
        match search_object response_text with
        | Some json_obj_match =>
            match json_loads lim json_obj_match with
            | Decoded data =>
                Some (do ps <- lift (py_get data "palettes" (JArr [])) ;
                      do items <- lift (py_iter ps) ;
                      palettes_loop items palettes)
            | JSONDecodeError => None
            | Raises e => Some (raise e)
            end
        | None => None
        end in
      match second_attempt with
      | Some run => run
      | None => ret palettes
      end
  end.

End WithUuid.

(** *** The shape extraction accepts

    What the fields of a candidate must look like for the constructors above
    to go through. *)

(** A field declared [str], read with [.get(k, dflt)]: the default when the
    key is absent, the value when it is a str, nothing otherwise. *)
Definition str_field (d : list (string * json)) (k dflt : string) : option string :=
  match dict_lookup d k with
  | None => Some dflt
  | Some (JStr s) => Some s
  | Some _ => None
  end.



(** What an attempt has to work on: the value decoded from the text its
    search finds, or the exception [json.loads] raises on it; nothing when
    the search finds no text or the text is refused with
    [json.JSONDecodeError]. *)
Definition decoded (lim : limits) (found : option string) : option (exn + json) :=
  match found with
  | Some t =>
      match json_loads lim t with
      | Decoded v => Some (inr v)
      | JSONDecodeError => None
      | Raises e => Some (inl e)
      end
  | None => None
  end.

(** The candidates of a reply: the elements of the array of the first
    attempt when it has something to work on, else those of the [palettes]
    field of the object of the second attempt, else none. *)
Definition candidates (lim : limits) (text : string) : option (exn + list json) :=
  match decoded lim (search_array text) with
  | Some (inr data) => Some (py_iter data)
  | Some (inl e) => Some (inl e)
  | None =>
      match decoded lim (search_object text) with
      | Some (inr data) =>
          Some (match py_get data "palettes" (JArr []) with
                | inl e => inl e
                | inr ps => py_iter ps
                end)
      | Some (inl e) => Some (inl e)
      | None => None
      end
  end.

(** A colour as the claim on normalization describes it, for the element
    [c] of a [colors] list: [c] is a dict; an absent key gives the default,
    a str value is kept. *)
Definition color_normalized (c : json) (col : Color) : Prop :=
  exists cd, c = JObj cd
    /\ (dict_lookup cd "hex" = None -> color_hex col = "#000000")
    /\ (dict_lookup cd "name" = None -> color_name col = "Unknown")
    /\ (dict_lookup cd "usage" = None -> color_usage col = "General")
    /\ (forall v, dict_lookup cd "hex" = Some v -> v = JStr (color_hex col))
    /\ (forall v, dict_lookup cd "name" = Some v -> v = JStr (color_name col))
    /\ (forall v, dict_lookup cd "usage" = Some v -> v = JStr (color_usage col)).

(** The same for a candidate [item] and the palette built from it. *)
Definition palette_normalized (item : json) (p : Palette) : Prop :=
  exists d, item = JObj d
    /\ (dict_lookup d "name" = None -> palette_name p = "Palette")
    /\ (dict_lookup d "description" = None -> palette_description p = "")
    /\ (dict_lookup d "psychology" = None -> palette_psychology p = "")
    /\ (dict_lookup d "colors" = None -> palette_colors p = [])
    /\ (forall cs, dict_lookup d "colors" = Some (JArr cs) ->
          Forall2 color_normalized cs (palette_colors p)).


(** An identifier source for the examples: the decimal numeral of the
    number of the draw. *)
Definition sample_uuid4 (k : nat) : string := "uuid-" +:+ pretty k.

(** Limits for the examples: the default of the limit on digits, and room
    for 900 containers one inside the other. *)
Definition sample_limits : limits :=
  {| max_str_digits := 4300; recursion_left := 900 |}.

(** A reply that is an int literal of [k] digits in brackets, and a reply
    of [k] opening brackets. *)
Definition long_int_reply (k : nat) : string :=
  "[" +:+ String.concat "" (repeat "7" k) +:+ "]".

Definition deep_reply (k : nat) : string := String.concat "" (repeat "[" k).

(** The palette extracted from a reply that gives only the name A, at the
    first draw of [sample_uuid4]. *)
Definition sample_palette : Palette :=
  {| palette_id := "uuid-0"; palette_name := "A"; palette_description := "";
     palette_colors := []; palette_psychology := "" |}.

End Extract.

(** ** Fallback catalog *)

Module Catalog.

Import Extract.
Open Scope list_scope.

(** What a [Palette(...)] of the catalog is built from: name, description,
    psychology and colours, as the keyword arguments are written. *)
Definition palette_data : Type := string * string * string * list Color.

Definition warm_appetite : palette_data :=
  ("Warm Appetite",
    "Warm, inviting colors that stimulate appetite",
    "Red and orange stimulate hunger, while earth tones create comfort",
    [mk_Color "#D4380D" "Tomato Red" "Primary";
     mk_Color "#FA8C16" "Orange Zest" "Secondary";
     mk_Color "#FADB14" "Golden Yellow" "Accent";
     mk_Color "#F5F0E6" "Cream" "Background";
     mk_Color "#3D3D3D" "Espresso" "Text"]).

Definition digital_trust : palette_data :=
  ("Digital Trust",
    "Modern, trustworthy tech palette",
    "Blue conveys trust and reliability, common in tech branding",
    [mk_Color "#1890FF" "Tech Blue" "Primary";
     mk_Color "#13C2C2" "Cyan" "Secondary";
     mk_Color "#722ED1" "Purple" "Accent";
     mk_Color "#F0F5FF" "Ice White" "Background";
     mk_Color "#262626" "Charcoal" "Text"]).

Definition professional_classic : palette_data :=
  ("Professional Classic",
    "Timeless professional palette",
    "Blue builds trust, neutral tones provide balance",
    [mk_Color "#2F54EB" "Royal Blue" "Primary";
     mk_Color "#597EF7" "Light Blue" "Secondary";
     mk_Color "#F5222D" "Action Red" "Accent";
     mk_Color "#FAFAFA" "Off White" "Background";
     mk_Color "#1F1F1F" "Near Black" "Text"]).

Definition modern_minimal : palette_data :=
  ("Modern Minimal",
    "Clean, contemporary design",
    "Monochrome with accent creates sophisticated modern feel",
    [mk_Color "#000000" "Pure Black" "Primary";
     mk_Color "#595959" "Gray" "Secondary";
     mk_Color "#EB2F96" "Magenta" "Accent";
     mk_Color "#FFFFFF" "White" "Background";
     mk_Color "#262626" "Dark Gray" "Text"]).

Definition nature_inspired : palette_data :=
  ("Nature Inspired",
    "Organic, earthy tones",
    "Green represents growth and harmony, connecting to nature",
    [mk_Color "#52C41A" "Fresh Green" "Primary";
     mk_Color "#389E0D" "Forest" "Secondary";
     mk_Color "#FAAD14" "Sunflower" "Accent";
     mk_Color "#F6FFED" "Mint Cream" "Background";
     mk_Color "#135200" "Deep Green" "Text"]).

Definition warm_sunset : palette_data :=
  ("Warm Sunset",
    "Energetic and inviting",
    "Warm colors evoke energy, passion, and friendliness",
    [mk_Color "#FA541C" "Sunset Orange" "Primary";
     mk_Color "#FAAD14" "Gold" "Secondary";
     mk_Color "#F5222D" "Coral Red" "Accent";
     mk_Color "#FFF7E6" "Warm White" "Background";
     mk_Color "#AD2102" "Deep Orange" "Text"]).

Definition cool_ocean : palette_data :=
  ("Cool Ocean",
    "Calm and refreshing",
    "Cool tones promote relaxation and trust",
    [mk_Color "#1890FF" "Ocean Blue" "Primary";
     mk_Color "#13C2C2" "Teal" "Secondary";
     mk_Color "#722ED1" "Purple Accent" "Accent";
     mk_Color "#E6F7FF" "Sky White" "Background";
     mk_Color "#003A8C" "Deep Blue" "Text"]).

(** [Palette(name=..., description=..., psychology=..., colors=[...])] on
    literals: the id comes from the default factory. *)
Definition literal_Palette (uuid4 : nat -> string) (d : palette_data) : Gen Palette :=
  let '(nm, descr, psych, colors) := d in
  do i <- fresh_id uuid4 ;
  ret {| palette_id := i; palette_name := nm; palette_description := descr;
         palette_colors := colors; palette_psychology := psych |}.

(** The palette built from [d] when the default factory returns [i]. *)
Definition with_id (i : string) (d : palette_data) : Palette :=
  let '(nm, descr, psych, colors) := d in
  {| palette_id := i; palette_name := nm; palette_description := descr;
     palette_colors := colors; palette_psychology := psych |}.

(** The arguments a palette was built from. *)
Definition data_of (p : Palette) : palette_data :=
  (palette_name p, palette_description p, palette_psychology p, palette_colors p).

(** [d.get(k, dflt)] on a dict with string keys. *)
Fixpoint str_dict_get {A} (d : list (string * A)) (k : string) (dflt : A) : A :=
  match d with
  | [] => dflt
  | (k', v) :: d' => if String.eqb k' k then v else str_dict_get d' k dflt
  end.

(** [generate_fallback_palettes(category)]: both tables are built, with
    their seven palettes, at every call. *)
Definition generate_fallback_palettes (uuid4 : nat -> string) (category : string)
    : Gen (list Palette) :=
  do food <- literal_Palette uuid4 warm_appetite ;
  do tech <- literal_Palette uuid4 digital_trust ;
  let fallback_palettes :=
    [("Food & Beverage", [food]); ("Technology", [tech])] in
  do p1 <- literal_Palette uuid4 professional_classic ;
  do p2 <- literal_Palette uuid4 modern_minimal ;
  do p3 <- literal_Palette uuid4 nature_inspired ;
  do p4 <- literal_Palette uuid4 warm_sunset ;
  do p5 <- literal_Palette uuid4 cool_ocean ;
  let default_palettes := [p1; p2; p3; p4; p5] in
  ret (str_dict_get fallback_palettes category default_palettes).

(** The two tables of the source as data: the curated lists by key and the
    generic default. *)
Definition curated : list (string * list palette_data) :=
  [("Food & Beverage", [warm_appetite]); ("Technology", [digital_trust])].

Definition generic_default : list palette_data :=
  [professional_classic; modern_minimal; nature_inspired; warm_sunset; cool_ocean].

End Catalog.

(** ** Request handlers *)

Module Gateway.

Import Quota Json Extract Catalog.
Open Scope list_scope.

Record PaletteGenerationRequest := mk_request {
  business_name : string;
  business_category : string;
  target_country : string;
  age_groups : list string;
  target_gender : string;
  brand_values : option string;
  competitors : option string
}.

Record PaletteGenerationResponse := mk_generation_response {
  palettes : list Palette;
  remaining_generations : Z
}.

Record ChatRequest := mk_chat_request {
  message : string;
  context : list (string * json);
  session_id : string
}.

Record ChatResponse := mk_chat_response {
  response : string;
  remaining_revisions : Z
}.

(** How a handler ends: it returns its response model, raises an
    [HTTPException], or lets another exception escape. *)
Inductive outcome (A : Type) :=
| Returned (body : A)
| HTTPException (status_code : Z) (detail : string)
| Escaped (e : exn).
Arguments Returned {A} body.
Arguments HTTPException {A} status_code detail.
Arguments Escaped {A} e.

(** What [model.generate_content(...)] and the read of [response.text] do:
    the call raises, the response has no [text], or it has one. *)
Inductive provider_outcome :=
| ProviderRaises
| ResponseWithoutText
| ResponseText (text : string).

(** The state the handlers share: the dict [rate_limits] and the number of
    identifiers drawn. *)
Definition world : Type := gmap string user_limits * nat.

Definition nl : string := String "010" EmptyString.

(** The truth value of an [Optional[str]]. *)
Definition truthy (v : option string) : bool :=
  match v with
  | Some (String _ _) => true
  | Some EmptyString => false
  | None => false
  end.

(** [f"{v}"] for a truthy [Optional[str]]. *)
Definition str_of (v : option string) : string := default "None" v.

(** The JSON skeleton that closes the prompt. *)
Definition schema_color_line : string :=
  Eval cbv in
    q "      {'hex': '#XXXXXX', 'name': 'Color Name', 'usage': 'Primary/Secondary/Accent/Background/Text'}".

Definition schema_lines : list string :=
  Eval cbv in
    ["["; "  {";
     q "    'name': 'Palette Name',";
     q "    'description': 'Brief description',";
     q "    'psychology': 'Color psychology explanation',";
     q "    'colors': [";
     schema_color_line +:+ ",";
     schema_color_line +:+ ",";
     schema_color_line +:+ ",";
     schema_color_line +:+ ",";
     schema_color_line;
     "    ]"; "  }"; "]"].

(** The f-string [prompt] of [generate_palettes], piece by piece. *)
Definition generation_prompt (data : PaletteGenerationRequest) : string :=
  let age_groups_str := String.concat ", " (age_groups data) in
  "Generate 5 professional color palettes for a " +:+ business_name data +:+
  " business in the " +:+ business_category data +:+ " industry." +:+ nl +:+
  nl +:+
  "Target Audience:" +:+ nl +:+
  "- Country: " +:+ target_country data +:+ nl +:+
  "- Age Groups: " +:+ age_groups_str +:+ nl +:+
  "- Gender: " +:+ target_gender data +:+ nl +:+
  (if truthy (brand_values data)
   then "- Brand Values: " +:+ str_of (brand_values data) else "") +:+ nl +:+
  (if truthy (competitors data)
   then "- Competitors to differentiate from: " +:+ str_of (competitors data)
   else "") +:+ nl +:+
  nl +:+
  "For each palette, provide exactly 5 colors. Consider:" +:+ nl +:+
  "1. Cultural color associations for " +:+ target_country data +:+ nl +:+
  "2. Age-appropriate appeal for " +:+ age_groups_str +:+ nl +:+
  "3. Gender preferences if applicable" +:+ nl +:+
  "4. Industry standards and competitor differentiation" +:+ nl +:+
  nl +:+
  "Return ONLY a JSON array with this exact structure (no other text):" +:+ nl +:+
  String.concat nl schema_lines.

Definition generation_limit_detail : string :=
  "Daily generation limit reached. Please try again tomorrow.".
Definition revision_limit_detail : string :=
  "Daily revision limit reached. Please try again tomorrow.".
Definition key_missing_detail : string := "Google Gemini API key not configured".

(** [not gemini_api_key] for the value of [os.environ.get(...)]. *)
Definition key_missing (gemini_api_key : option string) : bool :=
  negb (truthy gemini_api_key).

Section Handlers.

Variable uuid4 : nat -> string.

(** The limits of the interpreter when the reply of the model is decoded. *)
Variable lim : limits.

(** [generate_palettes(request, data)]: [ip] is the client identifier of the
    request, [gemini_api_key] the value of the environment variable,
    [generate_content] the upstream model. *)
Definition generate_palettes (now : Z) (ip : string)
    (data : PaletteGenerationRequest) (gemini_api_key : option string)
    (generate_content : string -> provider_outcome) (w : world)
    : outcome PaletteGenerationResponse * world :=
  let '(rl, n) := w in
  let '((allowed, remaining), rl1) := check_rate_limit now ip "generation" rl in
  if negb allowed then (HTTPException 429 generation_limit_detail, (rl1, n))
  else
    let prompt := generation_prompt data in
    if key_missing gemini_api_key
    then (HTTPException 500 key_missing_detail, (rl1, n))
    else
      (* except Exception: the fallback palettes, the same remaining count *)
      let handler (n' : nat) :=
        match generate_fallback_palettes uuid4 (business_category data) n' with
        | (inr ps, n'') =>
            (Returned {| palettes := ps; remaining_generations := remaining |},
             (rl1, n''))
        | (inl e, n'') => (Escaped e, (rl1, n''))
        end in
      (* if not palettes: palettes = generate_fallback_palettes(...) *)
      let finish (ps : list Palette) (n' : nat) :=
        match ps with
        | [] => handler n'
        | _ :: _ =>
            (Returned {| palettes := ps; remaining_generations := remaining |},
             (rl1, n'))
        end in
      match generate_content prompt with
      | ProviderRaises => handler n
      | ResponseWithoutText => finish [] n
      | ResponseText text =>
          match parse_palette_response uuid4 lim text n with
          | (inr ps, n') => finish ps n'
          | (inl _, n') => handler n'
          end
      end.

(** [json.dumps(v, indent=2)] and [str(v)] for a value that is not a str. *)
Variable json_dumps : json -> string.
Variable py_str : json -> string.

(** [f"{v}"]. *)
Definition format_value (v : json) : string :=
  match v with
  | JStr s => s
  | _ => py_str v
  end.

Fixpoint all_str (items : list json) : option (list string) :=
  match items with
  | [] => Some []
  | JStr s :: items' =>
      match all_str items' with
      | Some l => Some (s :: l)
      | None => None
      end
  | _ :: _ => None
  end.

(** [', '.join(v)]. *)
Definition join_comma (v : json) : exn + string :=
  match py_iter v with
  | inl e => inl e
  | inr items =>
      match all_str items with
      | Some l => inr (String.concat ", " l)
      | None => inl TypeError
      end
  end.

(** The f-string [system_message] of [chat_with_ai], with what precedes it. *)
Definition system_message (data : ChatRequest) : exn + string :=
  let palettes_context := json_dumps (dict_get (context data) "palettes" (JArr [])) in
  let business_info := dict_get (context data) "business_info" (JObj []) in
  match py_get business_info "business_name" (JStr "a business") with
  | inl e => inl e
  | inr name =>
  match py_get business_info "business_category" (JStr "General") with
  | inl e => inl e
  | inr category =>
  match py_get business_info "target_country" (JStr "Global") with
  | inl e => inl e
  | inr country =>
  match py_get business_info "age_groups" (JArr []) with
  | inl e => inl e
  | inr groups =>
  match join_comma groups with
  | inl e => inl e
  | inr audience =>
  match py_get business_info "target_gender" (JStr "") with
  | inl e => inl e
  | inr gender =>
      inr ("You are a professional color consultant helping refine color palettes for "
           +:+ format_value name +:+ "." +:+ nl +:+
           nl +:+
           "Business Context:" +:+ nl +:+
           "- Type: " +:+ format_value category +:+ nl +:+
           "- Target Country: " +:+ format_value country +:+ nl +:+
           "- Target Audience: " +:+ audience +:+ " " +:+ format_value gender +:+ nl +:+
           nl +:+
           "Current Palettes:" +:+ nl +:+
           palettes_context +:+ nl +:+
           nl +:+
           "Provide helpful, concise advice about color choices, psychology, and brand alignment. When suggesting color changes, always include specific hex codes. Format color suggestions clearly.")
  end end end end end end.

(** [chat_with_ai(request, data)]; [generate_content] is given the system
    instruction and the user's message. *)
Definition chat_with_ai (now : Z) (ip : string) (data : ChatRequest)
    (gemini_api_key : option string)
    (generate_content : string -> string -> provider_outcome)
    (rl : gmap string user_limits)
    : outcome ChatResponse * gmap string user_limits :=
  let '((allowed, remaining), rl1) := check_rate_limit now ip "revision" rl in
  if negb allowed then (HTTPException 429 revision_limit_detail, rl1)
  else if key_missing gemini_api_key
  then (HTTPException 500 key_missing_detail, rl1)
  else
    match system_message data with
    | inl e => (Escaped e, rl1)
    | inr sys =>
        match generate_content sys (message data) with
        | ProviderRaises => (HTTPException 500 "Failed to get AI response", rl1)
        | ResponseWithoutText =>
            (Returned {| response := "Unable to generate response";
                         remaining_revisions := remaining |}, rl1)
        | ResponseText text =>
            (Returned {| response := text; remaining_revisions := remaining |}, rl1)
        end
    end.

End Handlers.

(** *** The prompt as a list of lines

    The lines of the template before and after the two optional ones, and
    the two ways of treating the line of an empty field. *)

Definition prompt_head (data : PaletteGenerationRequest) : list string :=
  ["Generate 5 professional color palettes for a " +:+ business_name data +:+
     " business in the " +:+ business_category data +:+ " industry.";
   "";
   "Target Audience:";
   "- Country: " +:+ target_country data;
   "- Age Groups: " +:+ String.concat ", " (age_groups data);
   "- Gender: " +:+ target_gender data].

Definition prompt_tail (data : PaletteGenerationRequest) : list string :=
  [""; "For each palette, provide exactly 5 colors. Consider:";
   "1. Cultural color associations for " +:+ target_country data;
   "2. Age-appropriate appeal for " +:+ String.concat ", " (age_groups data);
   "3. Gender preferences if applicable";
   "4. Industry standards and competitor differentiation";
   "";
   "Return ONLY a JSON array with this exact structure (no other text):"]
  ++ schema_lines.

Definition brand_values_line (data : PaletteGenerationRequest) : string :=
  "- Brand Values: " +:+ str_of (brand_values data).

Definition competitors_line (data : PaletteGenerationRequest) : string :=
  "- Competitors to differentiate from: " +:+ str_of (competitors data).

(** Omission: the line of an empty field is not in the list at all. *)
Definition prompt_by_omission (data : PaletteGenerationRequest) : string :=
  String.concat nl
    (prompt_head data
     ++ (if truthy (brand_values data) then [brand_values_line data] else [])
     ++ (if truthy (competitors data) then [competitors_line data] else [])
     ++ prompt_tail data).

(** Interpolation: the line of an empty field is an empty line. *)
Definition prompt_by_interpolation (data : PaletteGenerationRequest) : string :=
  String.concat nl
    (prompt_head data
     ++ [if truthy (brand_values data) then brand_values_line data else ""]
     ++ [if truthy (competitors data) then competitors_line data else ""]
     ++ prompt_tail data).

(** [s.split("\n")]. *)
Fixpoint split_lines (s : string) : list string :=
  match s with
  | EmptyString => [EmptyString]
  | String c rest =>
      if Ascii.eqb c "010" then EmptyString :: split_lines rest
      else
        match split_lines rest with
        | l :: ls => String c l :: ls
        | [] => [String c EmptyString]
        end
  end.

(** Requests and collaborators for the examples. *)
Definition request_without_optionals : PaletteGenerationRequest :=
  {| business_name := "Acme"; business_category := "Technology";
     target_country := "Norway"; age_groups := ["18-24"; "25-34"];
     target_gender := "All"; brand_values := Some ""; competitors := None |}.

Definition request_with_optionals : PaletteGenerationRequest :=
  {| business_name := "Acme"; business_category := "Food & Beverage";
     target_country := "Norway"; age_groups := ["18-24"; "25-34"];
     target_gender := "All"; brand_values := Some "cozy";
     competitors := Some "Starbucks" |}.

Definition failing_provider (prompt : string) : provider_outcome := ProviderRaises.

Definition failing_chat (system_instruction msg : string) : provider_outcome :=
  ProviderRaises.

Definition sample_chat : ChatRequest :=
  {| message := "Make it warmer"; context := []; session_id := "s1" |}.

(** The system message built for [sample_chat], with the palettes written
    as an empty array. *)
Definition sample_system_message : string :=
  match system_message (fun _ => "[]") (fun _ => "") sample_chat with
  | inr sys => sys
  | inl _ => ""
  end.


(** A dict in which one client has used up both counters. *)
Definition spent_quota : gmap string user_limits :=
  <[ "10.0.0.1" := {| generations := 0; revisions := 0; reset_time := 100 |} ]> ∅.

End Gateway.

(** ** Client identifier *)

Module Http.

(** What [get_client_ip] reads of a [Request]: the value of the
    x-forwarded-for header, when the request has one, and the host of
    [request.client], when the connection has a peer.  A header value is a
    str of characters below 256 (the bytes of the header, one character
    each): here a [string] with one [ascii] per character. *)
Record Request := mk_Request {
  forwarded_for : option string;
  client_host : option string
}.

(** [c.isspace()] for a character below 256: tab to carriage return, the
    four separators 28 to 31, space, next line (133), no-break space (160). *)
Definition is_space (c : ascii) : bool :=
  let n := N_of_ascii c in
  ((9 <=? n) && (n <=? 13) || (28 <=? n) && (n <=? 31)
   || (n =? 32) || (n =? 133) || (n =? 160))%N.

(** [s.lstrip()], [s.rstrip()], [s.strip()]. *)
Fixpoint lstrip (s : string) : string :=
  match s with
  | String c rest => if is_space c then lstrip rest else s
  | EmptyString => EmptyString
  end.

Fixpoint rstrip (s : string) : string :=
  match s with
  | EmptyString => EmptyString
  | String c rest =>
      match rstrip rest with
      | EmptyString => if is_space c then EmptyString else String c EmptyString
      | String c' rest' => String c (String c' rest')
      end
  end.

Definition strip (s : string) : string := rstrip (lstrip s).

(** [s.split(",")[0]]: what stands before the first comma. *)
Fixpoint before_comma (s : string) : string :=
  match s with
  | EmptyString => EmptyString
  | String c rest =>
      if Ascii.eqb c "," then EmptyString else String c (before_comma rest)
  end.

(** [get_client_ip(request)]. *)
Definition get_client_ip (request : Request) : string :=
  match forwarded_for request with
  | Some (String c rest) => strip (before_comma (String c rest))
  | Some EmptyString | None =>
      match client_host request with
      | Some host => host
      | None => "unknown"
      end
  end.

(** The first and the last character of a str, when it has one. *)
Definition first_char (s : string) : option ascii :=
  match s with
  | String c _ => Some c
  | EmptyString => None
  end.

Fixpoint last_char (s : string) : option ascii :=
  match s with
  | EmptyString => None
  | String c EmptyString => Some c
  | String _ rest => last_char rest
  end.

(** No white space at either end. *)
Definition trimmed (s : string) : Prop :=
  (forall c, first_char s = Some c -> is_space c = false)
  /\ (forall c, last_char s = Some c -> is_space c = false).

End Http.

(** ** Runs of quota operations *)

Module QuotaRuns.

Import Quota.
Open Scope list_scope.

(** The client an operation is about. *)
Definition op_client (op : quota_op) : string :=
  match op with
  | OpCheck _ ip _ => ip
  | OpStatus _ ip => ip
  end.

(** The clients the checks of a run are about. *)
Fixpoint checked_clients (ops : list quota_op) : gset string :=
  match ops with
  | [] => ∅
  | OpCheck _ ip _ :: ops' => {[ ip ]} ∪ checked_clients ops'
  | OpStatus _ _ :: ops' => checked_clients ops'
  end.

(** Checks of one client for one action, one after the other at the times
    of the list: the answers [allowed], in order, and the dict at the end. *)
Fixpoint check_series (a : action) (ip : string) (times : list Z)
    (rl : gmap string user_limits) : list bool * gmap string user_limits :=
  match times with
  | [] => ([], rl)
  | now :: times' =>
      let '((allowed, _), rl1) := check_rate_limit now ip (action_name a) rl in
      let '(answers, rl2) := check_series a ip times' rl1 in
      (allowed :: answers, rl2)
  end.

(** The counter of an action in the dict a status read returns. *)
Definition status_counter (a : action) (st : limits_status) : Z :=
  match a with
  | Generation => generations_remaining st
  | Revision => revisions_remaining st
  end.

Definition other (a : action) : action :=
  match a with Generation => Revision | Revision => Generation end.

End QuotaRuns.

(** ** The catalog against the schema of the prompt *)

Module Schema.

Import Extract Catalog.
Open Scope list_scope.

Definition is_hex_digit (c : ascii) : bool :=
  let n := N_of_ascii c in
  ((48 <=? n) && (n <=? 57) || (65 <=? n) && (n <=? 70)
   || (97 <=? n) && (n <=? 102))%N.

(** A hash sign and six hexadecimal digits. *)
Definition is_hex_color (s : string) : bool :=
  match s with
  | String "#" (String a (String b (String c (String d (String e (String f EmptyString)))))) =>
      is_hex_digit a && is_hex_digit b && is_hex_digit c
      && is_hex_digit d && is_hex_digit e && is_hex_digit f
  | _ => false
  end.

(** The usages the prompt names, in its order. *)
Definition usage_vocabulary : list string :=
  ["Primary"; "Secondary"; "Accent"; "Background"; "Text"].

(** Five colours, one of each usage in the order of the prompt, each with a
    well-formed hex. *)
Definition follows_schema (p : Palette) : Prop :=
  map color_usage (palette_colors p) = usage_vocabulary
  /\ Forall (fun c => is_hex_color (color_hex c) = true) (palette_colors p).

End Schema.

(** ** Replies in the shape the prompt asks for *)

Module Reply.

Import Json Extract.
Open Scope list_scope.

(** The object the prompt asks for a colour, as decoded. *)
Definition json_of_color (c : Color) : json :=
  JObj [("hex", JStr (color_hex c)); ("name", JStr (color_name c));
        ("usage", JStr (color_usage c))].

(** The object the prompt asks for a palette, as decoded: the four keys of
    the schema, in its order. *)
Definition json_of_palette (p : Palette) : json :=
  JObj [("name", JStr (palette_name p));
        ("description", JStr (palette_description p));
        ("psychology", JStr (palette_psychology p));
        ("colors", JArr (map json_of_color (palette_colors p)))].

Definition set_id (i : string) (p : Palette) : Palette :=
  {| palette_id := i; palette_name := palette_name p;
     palette_description := palette_description p;
     palette_colors := palette_colors p;
     palette_psychology := palette_psychology p |}.

(** The palettes with the identifiers of the draws [n], [n + 1], ... of the
    source [uuid4], in order. *)
Fixpoint renumber (uuid4 : nat -> string) (n : nat) (ps : list Palette)
    : list Palette :=
  match ps with
  | [] => []
  | p :: ps' => set_id (uuid4 n) p :: renumber uuid4 (S n) ps'
  end.

End Reply.

(** ** Replies as text *)

Module ReplyText.

Import Json Extract Reply.
Open Scope list_scope.

(** A character that stands for itself between the quotes of a JSON
    string: not a control character, not the quote, not the backslash. *)
Definition plain_char (c : ascii) : bool :=
  (32 <=? N_of_ascii c)%N && negb (Ascii.eqb c dquote) && negb (Ascii.eqb c backslash).

Fixpoint plain (s : string) : bool :=
  match s with
  | EmptyString => true
  | String c rest => plain_char c && plain rest
  end.

Definition plain_color (c : Color) : bool :=
  plain (color_hex c) && plain (color_name c) && plain (color_usage c).

Definition plain_palette (p : Palette) : bool :=
  plain (palette_name p) && plain (palette_description p)
  && plain (palette_psychology p) && forallb plain_color (palette_colors p).

(** The text of a JSON string for a plain str. *)
Definition quoted (s : string) : string :=
  String dquote (s +:+ String dquote EmptyString).

(** The text of a JSON array, with the separator [json.dumps] writes. *)
Definition render_list (items : list string) : string :=
  "[" +:+ String.concat ", " items +:+ "]".

(** The text of the object of a colour and of a palette, with the keys of
    the schema in its order and the separators [json.dumps] writes. *)
Definition render_color (c : Color) : string :=
  "{" +:+ quoted "hex" +:+ ": " +:+ quoted (color_hex c) +:+ ", "
  +:+ quoted "name" +:+ ": " +:+ quoted (color_name c) +:+ ", "
  +:+ quoted "usage" +:+ ": " +:+ quoted (color_usage c) +:+ "}".

Definition render_palette (p : Palette) : string :=
  "{" +:+ quoted "name" +:+ ": " +:+ quoted (palette_name p) +:+ ", "
  +:+ quoted "description" +:+ ": " +:+ quoted (palette_description p) +:+ ", "
  +:+ quoted "psychology" +:+ ": " +:+ quoted (palette_psychology p) +:+ ", "
  +:+ quoted "colors" +:+ ": " +:+ render_list (map render_color (palette_colors p))
  +:+ "}".

Definition render_palettes (ps : list Palette) : string :=
  render_list (map render_palette ps).

(** What the scanners owe on a text followed by anything, given a budget
    above their need and room for [k] containers one inside the other:
    [scan_once] on the text of a value, [object_loop] on the text after the
    opening quote of the first key, [array_loop] on the text at the first
    element. *)
Definition scans_as (k : nat) (t : string) (v : json) : Prop :=
  forall lim fuel depth r,
    (2 * String.length (t +:+ r) < fuel)%nat -> (k <= depth)%nat ->
    scan_once lim fuel depth (t +:+ r) = Parsed v r.

Definition fields_as (k : nat) (t : string) (pairs : list (string * json)) : Prop :=
  forall lim fuel depth r,
    (2 * String.length (t +:+ r) + 1 < fuel)%nat -> (k <= depth)%nat ->
    object_loop lim fuel depth (t +:+ r) = Parsed pairs r.

Definition elements_as (k : nat) (t : string) (vs : list json) : Prop :=
  forall lim fuel depth r,
    (2 * String.length (t +:+ r) + 1 < fuel)%nat -> (k <= depth)%nat ->
    array_loop lim fuel depth (t +:+ r) = Parsed vs r.

(** The text starts with a character that is neither white space nor the
    closing bracket. *)
Definition starts_solid (t : string) : Prop :=
  match t with
  | String c _ => is_ws c || Ascii.eqb c "]" = false
  | EmptyString => False
  end.

End ReplyText.

(** ** Shapes the chat context may have *)

Module Context.

Import Json.


End Context.

(** * Properties *)

(** ** Quota tracker *)

Section QuotaFacts.

Import Quota.

Implicit Types (rl : gmap string user_limits) (ul : user_limits).

Lemma fresh_not_due now : (now >=? reset_time (fresh_limits now)) = false.
Proof. unfold fresh_limits, one_day; simpl. lia. Qed.

Lemma fresh_limits_ok now : limits_ok (fresh_limits now).
Proof. unfold limits_ok; simpl; lia. Qed.

Lemma effective_limits_ok now ip rl :
  store_ok rl -> limits_ok (effective_limits now ip rl).
Proof.
  intros Hok. unfold effective_limits.
  destruct (rl !! ip) as [r|] eqn:Hip; [|apply fresh_limits_ok].
  destruct (now >=? reset_time r); [apply fresh_limits_ok | exact (Hok _ _ Hip)].
Qed.

(** [check_rate_limit] in terms of the record it works on: in the refusing
    branch the dict is the one it was given, because a record just created
    or just reset has both counters positive. *)
Lemma check_rate_limit_eq now ip (a : action) rl :
  check_rate_limit now ip (action_name a) rl =
    if counter a (effective_limits now ip rl) <=? 0 then ((false, 0), rl)
    else ((true, counter a (effective_limits now ip rl) - 1),
          <[ip := decrement a (effective_limits now ip rl)]> rl).
Proof.
  unfold check_rate_limit, effective_limits.
  destruct (rl !! ip) as [r|] eqn:Hip.
  - rewrite Hip. simpl.
    destruct (now >=? reset_time r) eqn:Hdue.
    + destruct a; simpl; rewrite ?insert_insert_eq; reflexivity.
    + destruct a; simpl;
        [destruct (generations r <=? 0) | destruct (revisions r <=? 0)]; reflexivity.
  - rewrite lookup_insert_eq. simpl. rewrite fresh_not_due.
    destruct a; simpl; rewrite ?insert_insert_eq; reflexivity.
Qed.

(** Whatever the [limit_type], the dict after [check_rate_limit] differs
    from the dict before at most at [ip]. *)
Lemma check_rate_limit_frame now ip lt rl ip' :
  ip <> ip' -> snd (check_rate_limit now ip lt rl) !! ip' = rl !! ip'.
Proof.
  intros Hne. unfold check_rate_limit.
  destruct (rl !! ip) as [r|] eqn:Hip; simpl;
    repeat match goal with
           | |- context [if ?b then _ else _] => destruct b; simpl
           end;
    rewrite ?lookup_insert_ne by exact Hne; reflexivity.
Qed.

(** The record at [ip] after [check_rate_limit] satisfies the invariant when
    the record before does. *)
Lemma check_rate_limit_ok now ip lt rl :
  store_ok rl -> store_ok (snd (check_rate_limit now ip lt rl)).
Proof.
  intros Hok ip' ul'.
  destruct (decide (ip = ip')) as [<-|Hne];
    [|rewrite check_rate_limit_frame by exact Hne; apply Hok].
  pose proof (fresh_limits_ok now) as Hfresh.
  unfold check_rate_limit.
  destruct (rl !! ip) as [r|] eqn:Hip; simpl.
  - pose proof (Hok _ _ Hip) as Hr. rewrite Hip; simpl.
    destruct (now >=? reset_time r); simpl;
      repeat match goal with
             | |- context [if ?b then _ else _] => destruct b eqn:?; simpl
             end;
      rewrite ?lookup_insert_eq, ?Hip; intros [= <-];
      unfold limits_ok, fresh_limits in *; simpl in *; lia.
  - rewrite lookup_insert_eq; simpl. rewrite fresh_not_due.
    repeat match goal with
           | |- context [if ?b then _ else _] => destruct b eqn:?; simpl
           end;
      rewrite ?lookup_insert_eq; intros [= <-];
      unfold limits_ok, fresh_limits in *; simpl in *; lia.
Qed.

Lemma get_remaining_limits_store now ip rl :
  snd (get_remaining_limits now ip rl) = rl.
Proof.
  unfold get_remaining_limits.
  destruct (rl !! ip) as [r|]; [destruct (now >=? reset_time r)|]; reflexivity.
Qed.

Lemma store_ok_empty : store_ok ∅.
Proof. intros ip ul H. rewrite lookup_empty in H. discriminate. Qed.

Lemma run_status_reads (reads : list (Z * string)) rl :
  run_ops (map (fun r => OpStatus (fst r) (snd r)) reads) rl = rl.
Proof.
  unfold run_ops. induction reads as [|[t i] reads IH]; simpl; [reflexivity|].
  rewrite get_remaining_limits_store. exact IH.
Qed.

(** C2. [check_rate_limit], for either action: the record it evaluates is a
    new record with counters 1 and 3 and deadline [now + 24h] for an unseen
    client, the same new record when [now] has reached the stored deadline,
    and the stored record otherwise; when the metered counter of that record
    is exhausted the answer is [(false, 0)] and the dict is unchanged;
    otherwise the counter is decremented in the dict and the answer is
    [(true, new value)].  The code tests the counter with [<= 0]; on a dict
    that satisfies the invariant of the data model this is the test for 0. *)
Theorem check_rate_limit_contract now ip (a : action) rl :
  let ul :=
    match rl !! ip with
    | None => {| generations := 1; revisions := 3; reset_time := now + one_day |}
    | Some r =>
        if now >=? reset_time r
        then {| generations := 1; revisions := 3; reset_time := now + one_day |}
        else r
    end in
  check_rate_limit now ip (action_name a) rl =
    (if counter a ul <=? 0 then ((false, 0), rl)
     else ((true, counter a ul - 1), <[ip := decrement a ul]> rl))
  /\ (store_ok rl -> (counter a ul <=? 0) = (counter a ul =? 0)).
Proof.
  cbv zeta. split; [exact (check_rate_limit_eq now ip a rl)|].
  intros Hok. pose proof (effective_limits_ok now ip rl Hok) as [Hg Hr].
  unfold effective_limits, fresh_limits in Hg, Hr.
  destruct a; cbn [counter]; lia.
Qed.

(** C3. [get_remaining_limits] leaves the dict as it was, for a seen or an
    unseen client: any number of status reads gives back the same dict, so a
    consuming call after them returns what it returns without them; the
    status reported is that of the record [check_rate_limit] would work on,
    and past the deadline of a stored record it shows the caps and
    [now + 24h] while the stored record stays as it was. *)
Theorem status_read_does_not_consume
    (reads : list (Z * string)) now ip limit_type rl (r : user_limits) (late : nat) :
  let rl' := run_ops (map (fun rd => OpStatus (fst rd) (snd rd)) reads) rl in
  rl' = rl
  /\ check_rate_limit now ip limit_type rl' = check_rate_limit now ip limit_type rl
  /\ get_remaining_limits now ip rl =
       ({| generations_remaining := generations (effective_limits now ip rl);
           revisions_remaining := revisions (effective_limits now ip rl);
           status_reset_time := reset_time (effective_limits now ip rl) |}, rl)
  /\ get_remaining_limits (reset_time r + Z.of_nat late) ip (<[ip := r]> rl) =
       ({| generations_remaining := 1; revisions_remaining := 3;
           status_reset_time := reset_time r + Z.of_nat late + one_day |},
        <[ip := r]> rl).
Proof.
  cbv zeta. rewrite run_status_reads. repeat split.
  - unfold get_remaining_limits, effective_limits.
    destruct (rl !! ip) as [r0|]; [destruct (now >=? reset_time r0)|]; reflexivity.
  - unfold get_remaining_limits. rewrite lookup_insert_eq.
    replace (reset_time r + Z.of_nat late >=? reset_time r) with true
      by (symmetry; apply Z.geb_le; lia).
    reflexivity.
Qed.

(** C8. Every operation keeps the invariant of the stored records: from a
    dict whose records have [0 <= generations <= 1] and
    [0 <= revisions <= 3], after any number of operations of any sequence
    of checks and status reads (at any times, for any clients, with any
    [limit_type]) every stored record still has. *)
Theorem quota_invariant (ops : list quota_op) rl (k : nat) :
  store_ok rl -> store_ok (run_ops (take k ops) rl).
Proof.
  unfold run_ops. revert rl.
  induction (take k ops) as [|op done_ops IH]; intros rl Hok; simpl; [exact Hok|].
  apply IH. destruct op as [now ip lt | now ip]; simpl.
  - apply check_rate_limit_ok, Hok.
  - rewrite get_remaining_limits_store. exact Hok.
Qed.

Lemma quota_invariant_witness :
  store_ok (run_ops (take 3 [OpCheck 0 "10.0.0.1" "generation";
                             OpStatus 5 "10.0.0.2";
                             OpCheck 7 "10.0.0.1" "generation";
                             OpCheck 9 "10.0.0.1" "revision"]) ∅).
Proof. apply quota_invariant. exact store_ok_empty. Defined.

End QuotaFacts.

(** ** The decoder never uses up its budget *)

Section JsonFacts.

Import Json.
Open Scope nat_scope.

Lemma skip_ws_length s : String.length (skip_ws s) <= String.length s.
Proof.
  induction s as [|c s IH]; simpl; [lia|].
  destruct (is_ws c); simpl; lia.
Qed.

Lemma strip_prefix_length lit : forall s t,
  strip_prefix lit s = Some t -> String.length t + String.length lit = String.length s.
Proof.
  induction lit as [|a lit IH]; intros s t H; simpl in *.
  - injection H as <-. lia.
  - destruct s as [|b s]; [discriminate|].
    destruct (Ascii.eqb a b); [|discriminate].
    apply IH in H. simpl. lia.
Qed.

Lemma span_digits_length s : forall ds r,
  span_digits s = (ds, r) -> String.length ds + String.length r = String.length s.
Proof.
  induction s as [|c s IH]; intros ds r H; simpl in *.
  - injection H as <- <-. reflexivity.
  - destruct (is_digit c).
    + destruct (span_digits s) as [ds' r'] eqn:E. injection H as <- <-.
      specialize (IH _ _ eq_refl). simpl. lia.
    + injection H as <- <-. simpl. lia.
Qed.

Lemma match_frac_length s f r :
  match_frac s = (f, r) -> String.length r <= String.length s.
Proof.
  unfold match_frac. destruct s as [|c s]; [intros [= <- <-]; lia|].
  destruct (Ascii.eqb c "."); [|intros [= <- <-]; lia].
  destruct (span_digits s) as [ds r'] eqn:E.
  apply span_digits_length in E.
  destruct ds; intros [= <- <-]; simpl in *; lia.
Qed.

Lemma match_exp_length s e r :
  match_exp s = (e, r) -> String.length r <= String.length s.
Proof.
  unfold match_exp. destruct s as [|c s]; [intros [= <- <-]; lia|].
  destruct (Ascii.eqb c "e" || Ascii.eqb c "E"); [|intros [= <- <-]; lia].
  destruct s as [|c1 s1].
  - simpl. intros [= <- <-]. simpl; lia.
  - destruct (Ascii.eqb c1 "-" || Ascii.eqb c1 "+").
    + destruct (span_digits s1) as [ds r'] eqn:E. apply span_digits_length in E.
      destruct ds; intros [= <- <-]; simpl in *; lia.
    + destruct (span_digits (String c1 s1)) as [ds r'] eqn:E.
      apply span_digits_length in E.
      destruct ds; intros [= <- <-]; simpl in *; lia.
Qed.

Lemma match_integer_length s i r :
  match_integer s = Some (i, r) -> String.length r < String.length s.
Proof.
  unfold match_integer. destruct s as [|c s]; [discriminate|].
  destruct (Ascii.eqb c "0"); [intros [= <- <-]; simpl; lia|].
  destruct (is_digit c); [|discriminate].
  destruct (span_digits s) as [ds r'] eqn:E. apply span_digits_length in E.
  intros [= <- <-]. simpl. lia.
Qed.

Lemma match_number_length lim s v r :
  match_number lim s = Some (v, r) -> String.length r < String.length s.
Proof.
  unfold match_number.
  set (p := match s with
            | String c r0 => if Ascii.eqb c "-" then (true, r0) else (false, s)
            | EmptyString => (false, s)
            end).
  assert (Hp : String.length (snd p) <= String.length s).
  { subst p. destruct s as [|c s]; simpl; [lia|].
    destruct (Ascii.eqb c "-"); simpl; lia. }
  destruct p as [neg s1]. simpl in Hp.
  destruct (match_integer s1) as [[i s2]|] eqn:Ei; [|discriminate].
  apply match_integer_length in Ei.
  destruct (match_frac s2) as [f s3] eqn:Ef. apply match_frac_length in Ef.
  destruct (match_exp s3) as [e s4] eqn:Ee. apply match_exp_length in Ee.
  destruct f, e; intros [= <- <-]; lia.
Qed.

Lemma decode_uXXXX_length s u r :
  decode_uXXXX s = Some (u, r) -> String.length r + 4 = String.length s.
Proof.
  unfold decode_uXXXX.
  destruct s as [|a [|b [|c [|d rest]]]]; try discriminate.
  destruct (hex_value a), (hex_value b), (hex_value c), (hex_value d);
    try discriminate.
  intros [= <- <-]. simpl. lia.
Qed.

Lemma within_budget_map {A B} (f : A -> B) (res : parse_result A) s s' :
  within_budget res s' -> String.length s' <= String.length s ->
  within_budget (map_result f res) s.
Proof.
  intros [Hne Hlen] Hle. destruct res as [a r| |e|]; simpl.
  - split; [discriminate|]. intros v r' [= <- <-].
    specialize (Hlen _ _ eq_refl). lia.
  - split; [discriminate|]. discriminate.
  - split; [discriminate|]. discriminate.
  - contradiction.
Qed.

Lemma within_budget_error {A} s : within_budget (@DecodeError A) s.
Proof. split; discriminate. Qed.

Lemma within_budget_raised {A} e s : within_budget (@Raised A e) s.
Proof. split; discriminate. Qed.

Lemma within_budget_parsed {A} (a : A) r s :
  String.length r < String.length s -> within_budget (Parsed a r) s.
Proof. intros H. split; [discriminate|]. intros v r' [= <- <-]. exact H. Qed.

Lemma scanstring_budget fuel : forall s,
  String.length s < fuel -> within_budget (scanstring fuel s) s.
Proof.
  induction fuel as [|fuel IH]; intros s Hlen; [lia|].
  cbn [scanstring]. destruct s as [|c rest]; [apply within_budget_error|].
  simpl in Hlen.
  destruct (Ascii.eqb c dquote); [apply within_budget_parsed; simpl; lia|].
  destruct (Ascii.eqb c backslash).
  - destruct rest as [|esc rest1]; [apply within_budget_error|]. simpl in Hlen.
    destruct (Ascii.eqb esc "u").
    + destruct (decode_uXXXX rest1) as [[uni rest2]|] eqn:Eu;
        [|apply within_budget_error].
      pose proof (decode_uXXXX_length _ _ _ Eu) as Hu.
      assert (Hsingle : within_budget
                (map_result (String.append (utf8 uni)) (scanstring fuel rest2))
                (String c (String esc rest1))).
      { eapply within_budget_map; [apply IH; lia|simpl; lia]. }
      destruct (is_high_surrogate uni); [|exact Hsingle].
      destruct (strip_prefix (String backslash "u") rest2) as [rest3|] eqn:Ep;
        [|exact Hsingle].
      apply strip_prefix_length in Ep. simpl in Ep.
      destruct (decode_uXXXX rest3) as [[uni2 rest4]|] eqn:Eu2;
        [|apply within_budget_error].
      pose proof (decode_uXXXX_length _ _ _ Eu2) as Hu2.
      destruct (is_low_surrogate uni2); [|exact Hsingle].
      eapply within_budget_map; [apply IH; lia|simpl; lia].
    + destruct (unescape esc); [|apply within_budget_error].
      eapply within_budget_map; [apply IH; lia|simpl; lia].
  - destruct (N_of_ascii c <? 32)%N; [apply within_budget_error|].
    eapply within_budget_map; [apply IH; lia|simpl; lia].
Qed.

(** The three mutually recursive scanners, together. *)
Lemma decoder_budget lim fuel : forall depth s,
  (2 * String.length s < fuel -> within_budget (scan_once lim fuel depth s) s)
  /\ (2 * String.length s + 1 < fuel ->
      within_budget (array_loop lim fuel depth s) (String "[" s))
  /\ (2 * String.length s + 1 < fuel ->
      within_budget (object_loop lim fuel depth s) (String "{" s)).
Proof.
  induction fuel as [|fuel IH]; intros depth s; [repeat split; lia|].
  assert (IHscan : forall k t, 2 * String.length t < fuel ->
                               within_budget (scan_once lim fuel k t) t)
    by (intros k t; apply IH).
  assert (IHarr : forall k t, 2 * String.length t + 1 < fuel ->
                              within_budget (array_loop lim fuel k t) (String "[" t))
    by (intros k t; apply IH).
  assert (IHobj : forall k t, 2 * String.length t + 1 < fuel ->
                              within_budget (object_loop lim fuel k t) (String "{" t))
    by (intros k t; apply IH).
  clear IH. split; [|split]; intros Hlen.
  - (* scan_once *)
    cbn [scan_once]. destruct s as [|c rest]; [apply within_budget_error|].
    simpl in Hlen.
    destruct (Ascii.eqb c dquote).
    { eapply within_budget_map; [apply scanstring_budget; lia|simpl; lia]. }
    destruct (Ascii.eqb c "{").
    { destruct depth as [|depth']; [apply within_budget_raised|].
      assert (Hobj : forall t, String.length t < String.length rest ->
                within_budget
                  (map_result (fun pairs => JObj (dict_of_pairs pairs))
                              (object_loop lim fuel depth' t))
                  (String c rest)).
      { intros t Ht. eapply within_budget_map; [apply IHobj; lia|simpl; lia]. }
      destruct rest as [|c1 t1]; [apply within_budget_error|]. simpl in Hlen.
      destruct (Ascii.eqb c1 dquote); [apply Hobj; simpl; lia|].
      pose proof (skip_ws_length (String c1 t1)) as Hws.
      destruct (skip_ws (String c1 t1)) as [|c2 t2]; [apply within_budget_error|].
      simpl in Hws.
      destruct (Ascii.eqb c2 "}"); [apply within_budget_parsed; simpl; lia|].
      destruct (Ascii.eqb c2 dquote); [apply Hobj; simpl; lia|].
      apply within_budget_error. }
    destruct (Ascii.eqb c "[").
    { destruct depth as [|depth']; [apply within_budget_raised|].
      pose proof (skip_ws_length rest) as Hws.
      destruct (skip_ws rest) as [|c1 t1].
      - eapply within_budget_map; [apply IHarr; simpl; lia|simpl; lia].
      - simpl in Hws.
        destruct (Ascii.eqb c1 "]"); [apply within_budget_parsed; simpl; lia|].
        eapply within_budget_map; [apply IHarr; simpl; lia|simpl; lia]. }
    repeat match goal with
           | |- context [strip_prefix ?l ?t] =>
               let E := fresh "E" in
               destruct (strip_prefix l t) eqn:E;
               [apply strip_prefix_length in E; simpl in E;
                apply within_budget_parsed; simpl; lia|]
           | |- context [match_number lim ?t] =>
               let E := fresh "E" in
               destruct (match_number lim t) as [[[?|?] ?]|] eqn:E;
               [apply within_budget_raised
               |apply match_number_length in E;
                apply within_budget_parsed; exact E|]
           end.
    apply within_budget_error.
  - (* array_loop *)
    cbn [array_loop]. destruct (IHscan depth s ltac:(lia)) as [Hne Hv].
    destruct (scan_once lim fuel depth s) as [v r| |e|];
      [|apply within_budget_error|apply within_budget_raised|contradiction].
    specialize (Hv _ _ eq_refl).
    pose proof (skip_ws_length r) as Hws.
    destruct (skip_ws r) as [|c t]; [apply within_budget_error|]. simpl in Hws.
    destruct (Ascii.eqb c "]"); [apply within_budget_parsed; simpl; lia|].
    destruct (Ascii.eqb c ","); [|apply within_budget_error].
    pose proof (skip_ws_length t) as Hws'.
    eapply within_budget_map; [apply IHarr; lia|simpl; lia].
  - (* object_loop *)
    cbn [object_loop]. destruct (scanstring_budget fuel s ltac:(lia)) as [Hne Hk].
    destruct (scanstring fuel s) as [key r| |e|];
      [|apply within_budget_error|apply within_budget_raised|contradiction].
    specialize (Hk _ _ eq_refl).
    pose proof (skip_ws_length r) as Hws.
    destruct (skip_ws r) as [|c1 r1]; [apply within_budget_error|]. simpl in Hws.
    destruct (Ascii.eqb c1 ":"); simpl; [|apply within_budget_error].
    pose proof (skip_ws_length r1) as Hws1.
    destruct (IHscan depth (skip_ws r1) ltac:(lia)) as [Hne' Hv].
    destruct (scan_once lim fuel depth (skip_ws r1)) as [v r2| |e|];
      [|apply within_budget_error|apply within_budget_raised|contradiction].
    specialize (Hv _ _ eq_refl).
    pose proof (skip_ws_length r2) as Hws2.
    destruct (skip_ws r2) as [|c r3]; [apply within_budget_error|]. simpl in Hws2.
    destruct (Ascii.eqb c "}"); [apply within_budget_parsed; simpl; lia|].
    destruct (Ascii.eqb c ","); [|apply within_budget_error].
    pose proof (skip_ws_length r3) as Hws3.
    destruct (skip_ws r3) as [|c4 r4]; [apply within_budget_error|]. simpl in Hws3.
    destruct (Ascii.eqb c4 dquote); [|apply within_budget_error].
    eapply within_budget_map; [apply IHobj; lia|simpl; lia].
Qed.

(** The budget [fuel_for] is enough for every text. *)
Lemma scan_once_fuel lim depth s : scan_once lim (fuel_for s) depth s <> OutOfFuel.
Proof.
  destruct (decoder_budget lim (fuel_for s) depth s) as [H _].
  apply H. unfold fuel_for. lia.
Qed.


End JsonFacts.

(** ** The two searches *)

Section SearchFacts.

Import Json Extract.

Lemma append_cons a (s t : string) : String a s +:+ t = String a (s +:+ t).
Proof. reflexivity. Qed.

Lemma from_first_split c s t :
  from_first c s = Some t ->
  exists pre t', s = pre +:+ t /\ t = String c t' /\ occurs c pre = false.
Proof.
  induction s as [|a rest IH]; [discriminate|]. cbn [from_first].
  destruct (Ascii.eqb a c) eqn:Eac.
  - intros [= <-]. apply Ascii.eqb_eq in Eac as ->.
    exists EmptyString, rest. repeat split.
  - intros H. destruct (IH H) as (pre & t' & -> & -> & Hpre).
    exists (String a pre), t'. cbn [occurs]. rewrite Eac, Hpre. repeat split.
Qed.

Lemma upto_last_None c s : upto_last c s = None -> occurs c s = false.
Proof.
  induction s as [|a rest IH]; [reflexivity|]. cbn [upto_last occurs].
  destruct (upto_last c rest); [discriminate|].
  destruct (Ascii.eqb a c); [discriminate|]. intros _. apply IH. reflexivity.
Qed.

Lemma upto_last_split c s p :
  upto_last c s = Some p ->
  exists p' post, s = p +:+ post /\ p = p' +:+ String c EmptyString
                  /\ occurs c post = false.
Proof.
  revert p. induction s as [|a rest IH]; intros p; [discriminate|].
  cbn [upto_last]. destruct (upto_last c rest) as [p0|] eqn:E.
  - intros [= <-]. destruct (IH _ eq_refl) as (p' & post & -> & -> & Hpost).
    exists (String a p'), post. repeat split. exact Hpost.
  - destruct (Ascii.eqb a c) eqn:Eac; [|discriminate]. intros [= <-].
    apply Ascii.eqb_eq in Eac as ->.
    exists EmptyString, rest. repeat split. apply upto_last_None, E.
Qed.

(** The array search returns the part of the text from its first opening
    bracket to its last closing bracket. *)
Lemma search_array_split text m :
  search_array text = Some m ->
  exists pre mid post,
    text = pre +:+ m +:+ post
    /\ m = String "[" mid +:+ "]"
    /\ occurs "[" pre = false /\ occurs "]" post = false.
Proof.
  unfold search_array. destruct (from_first "[" text) as [t|] eqn:Ef; [|discriminate].
  intros Hu. apply from_first_split in Ef as (pre & t' & -> & -> & Hpre).
  apply upto_last_split in Hu as (p' & post & Ht & -> & Hpost).
  destruct p' as [|a p'].
  - (* the last closing bracket cannot be the opening one *)
    cbn in Ht. discriminate Ht.
  - rewrite append_cons in Ht. injection Ht as <- Ht.
    exists pre, p', post. rewrite Ht. rewrite !append_cons. repeat split; assumption.
Qed.

(** The object search returns the part of the text from its first opening
    brace to its last closing brace, and only when the quoted word is in
    between. *)
Lemma search_object_split text m :
  search_object text = Some m ->
  exists pre mid post,
    text = pre +:+ m +:+ post
    /\ m = String "{" mid +:+ "}"
    /\ contains palettes_token mid = true
    /\ occurs "{" pre = false /\ occurs "}" post = false.
Proof.
  unfold search_object. destruct (from_first "{" text) as [t|] eqn:Ef; [|discriminate].
  apply from_first_split in Ef as (pre & t' & -> & -> & Hpre).
  destruct (upto_last "}" (String "{" t')) as [[|b inner]|] eqn:Eu; try discriminate.
  destruct (contains palettes_token (drop_last inner)) eqn:Ec; [|discriminate].
  intros [= <-].
  apply upto_last_split in Eu as (p' & post & Ht & Hp & Hpost).
  destruct p' as [|a p'].
  - cbn in Hp. injection Hp as -> ->. cbn in Ht. discriminate Ht.
  - rewrite append_cons in Hp. injection Hp as -> ->.
    rewrite append_cons in Ht. injection Ht as <- Ht.
    assert (Hdrop : forall u, drop_last (u +:+ "}") = u).
    { induction u as [|x u IHu]; [reflexivity|]. rewrite append_cons.
      cbn [drop_last]. destruct (u +:+ "}") eqn:Eu'.
      - destruct u; discriminate Eu'.
      - rewrite IHu. reflexivity. }
    rewrite Hdrop in Ec.
    exists pre, p', post. rewrite Ht, !append_cons. repeat split; assumption.
Qed.

End SearchFacts.

(** ** Extraction *)

Section ExtractFacts.

Import Json Extract.
Open Scope list_scope.
Open Scope nat_scope.

Variable uuid4 : nat -> string.
Variable lim : limits.

Implicit Types (d cd : list (string * json)) (n k : nat).

Lemma validate_str_field d key dflt :
  validate_str (dict_get d key (JStr dflt)) =
    match str_field d key dflt with
    | Some s => inr s
    | None => inl ValidationError
    end.
Proof.
  unfold dict_get, str_field.
  destruct (dict_lookup d key) as [[]|]; reflexivity.
Qed.

Lemma str_field_absent d key dflt :
  dict_lookup d key = None -> str_field d key dflt = Some dflt.
Proof. unfold str_field. intros ->. reflexivity. Qed.

Lemma str_field_present d key dflt v s :
  dict_lookup d key = Some v -> str_field d key dflt = Some s -> v = JStr s.
Proof.
  unfold str_field. intros ->. destruct v; try discriminate.
  intros [= ->]. reflexivity.
Qed.

(** One turn of the loop over colours, for an element that is a dict. *)
Lemma colors_loop_dict cd cs (acc : list Color) :
  colors_loop (JObj cd :: cs) acc =
    match str_field cd "hex" "#000000", str_field cd "name" "Unknown",
          str_field cd "usage" "General" with
    | Some h, Some nm, Some u =>
        colors_loop cs (acc ++ [{| color_hex := h; color_name := nm; color_usage := u |}])
    | _, _, _ => inl ValidationError
    end.
Proof.
  cbn [colors_loop py_get]. unfold new_Color.
  rewrite !validate_str_field.
  destruct (str_field cd "hex" "#000000"), (str_field cd "name" "Unknown"),
    (str_field cd "usage" "General"); reflexivity.
Qed.

Lemma colors_loop_not_dict c cs (acc : list Color) :
  (forall cd, c <> JObj cd) -> colors_loop (c :: cs) acc = inl AttributeError.
Proof.
  intros H. destruct c; try reflexivity. exfalso. eapply H. reflexivity.
Qed.


Lemma colors_loop_normalized cs : forall acc out,
  colors_loop cs acc = inr out ->
  exists new, out = acc ++ new /\ Forall2 color_normalized cs new.
Proof.
  induction cs as [|c cs IH]; intros acc out H.
  - injection H as <-. exists []. rewrite app_nil_r. split; [reflexivity|constructor].
  - destruct c as [| | | | | |cd]; try discriminate.
    rewrite colors_loop_dict in H.
    destruct (str_field cd "hex" "#000000") as [h|] eqn:Eh; [|discriminate].
    destruct (str_field cd "name" "Unknown") as [nm|] eqn:En; [|discriminate].
    destruct (str_field cd "usage" "General") as [u|] eqn:Eu; [|discriminate].
    apply IH in H as (new & -> & Hnew).
    exists ({| color_hex := h; color_name := nm; color_usage := u |} :: new).
    split; [rewrite <- app_assoc; reflexivity|].
    constructor; [|exact Hnew].
    exists cd. split; [reflexivity|]. cbn [color_hex color_name color_usage].
    repeat split.
    + intros Ha. rewrite (str_field_absent _ _ _ Ha) in Eh. congruence.
    + intros Ha. rewrite (str_field_absent _ _ _ Ha) in En. congruence.
    + intros Ha. rewrite (str_field_absent _ _ _ Ha) in Eu. congruence.
    + intros v Hv. exact (str_field_present _ _ _ _ _ Hv Eh).
    + intros v Hv. exact (str_field_present _ _ _ _ _ Hv En).
    + intros v Hv. exact (str_field_present _ _ _ _ _ Hv Eu).
Qed.

(** One turn of the loop over candidates, for a candidate that is a dict. *)
Lemma item_palette_dict d n :
  item_palette uuid4 (JObj d) n =
    match item_colors (JObj d) with
    | inl e => (inl e, n)
    | inr colors =>
        match str_field d "name" "Palette", str_field d "description" "",
              str_field d "psychology" "" with
        | Some nm, Some ds, Some ps =>
            (inr {| palette_id := uuid4 n; palette_name := nm;
                    palette_description := ds; palette_colors := colors;
                    palette_psychology := ps |}, S n)
        | _, _, _ => (inl ValidationError, S n)
        end
    end.
Proof.
  unfold item_palette, bind, lift, new_Palette, fresh_id, ret, raise.
  destruct (item_colors (JObj d)) as [e|colors]; [reflexivity|].
  cbn [py_get bind]. rewrite !validate_str_field.
  destruct (str_field d "name" "Palette"), (str_field d "description" ""),
    (str_field d "psychology" ""); reflexivity.
Qed.

Lemma item_palette_not_dict item n :
  (forall d, item <> JObj d) -> item_palette uuid4 item n = (inl AttributeError, n).
Proof.
  intros H. destruct item; try reflexivity. exfalso. eapply H. reflexivity.
Qed.

Lemma item_colors_dict d :
  item_colors (JObj d) =
    match py_iter (dict_get d "colors" (JArr [])) with
    | inl e => inl e
    | inr cs => colors_loop cs []
    end.
Proof. reflexivity. Qed.


(** A palette that is built takes the next identifier, and is normalized. *)
Lemma item_palette_inr item n p n' :
  item_palette uuid4 item n = (inr p, n') ->
  n' = S n /\ palette_id p = uuid4 n /\ palette_normalized item p.
Proof.
  destruct item as [| | | | | |d]; try discriminate.
  rewrite item_palette_dict, item_colors_dict.
  destruct (py_iter (dict_get d "colors" (JArr []))) as [e|cs] eqn:Eit; [discriminate|].
  destruct (colors_loop cs []) as [e|colors] eqn:Ecs; [discriminate|].
  destruct (str_field d "name" "Palette") as [nm|] eqn:En; [|discriminate].
  destruct (str_field d "description" "") as [ds|] eqn:Ed; [|discriminate].
  destruct (str_field d "psychology" "") as [ps|] eqn:Ep; [|discriminate].
  intros [= <- <-]. split; [reflexivity|]. split; [reflexivity|].
  exists d. split; [reflexivity|].
  cbn [palette_name palette_description palette_psychology palette_colors].
  apply colors_loop_normalized in Ecs as (new & Hnew & Hall).
  cbn [app] in Hnew. subst new.
  repeat split.
  - intros Ha. rewrite (str_field_absent _ _ _ Ha) in En. congruence.
  - intros Ha. rewrite (str_field_absent _ _ _ Ha) in Ed. congruence.
  - intros Ha. rewrite (str_field_absent _ _ _ Ha) in Ep. congruence.
  - intros Ha. unfold dict_get in Eit. rewrite Ha in Eit. cbn in Eit.
    injection Eit as <-. inversion Hall. reflexivity.
  - intros cs' Hc. unfold dict_get in Eit. rewrite Hc in Eit. cbn in Eit.
    injection Eit as <-. exact Hall.
Qed.


Lemma palettes_loop_inr items : forall acc n ps n',
  palettes_loop uuid4 items acc n = (inr ps, n') ->
  exists new,
    ps = acc ++ new /\ n' = n + length new
    /\ map palette_id new = map uuid4 (seq n (length new))
    /\ Forall2 palette_normalized items new.
Proof.
  induction items as [|item items IH]; intros acc n ps n' H.
  - injection H as <- <-. exists []. rewrite app_nil_r.
    repeat split; [cbn; lia|constructor].
  - cbn [palettes_loop] in H. unfold bind in H.
    destruct (item_palette uuid4 item n) as [[e|p] n1] eqn:Eitem; [discriminate|].
    apply item_palette_inr in Eitem as (-> & Hid & Hnorm).
    apply IH in H as (new & -> & -> & Hids & Hall).
    exists (p :: new). rewrite <- app_assoc. cbn [app length map seq].
    repeat split; [lia|congruence|constructor; assumption].
Qed.

(** [parse_palette_response] in terms of the candidates of the reply. *)
Lemma parse_palette_response_candidates text n :
  parse_palette_response uuid4 lim text n =
    match candidates lim text with
    | None => (inr [], n)
    | Some (inl e) => (inl e, n)
    | Some (inr items) => palettes_loop uuid4 items [] n
    end.
Proof.
  assert (Hsecond :
    match
      match search_object text with
      | Some json_obj_match =>
          match json_loads lim json_obj_match with
          | Decoded data =>
              Some (do ps <- lift (py_get data "palettes" (JArr [])) ;
                    do items <- lift (py_iter ps) ;
                    palettes_loop uuid4 items [])
          | JSONDecodeError => None
          | Raises e => Some (raise e)
          end
      | None => None
      end
    with
    | Some run => run
    | None => ret []
    end n
    = match
        match decoded lim (search_object text) with
        | Some (inr data) =>
            Some (match py_get data "palettes" (JArr []) with
                  | inl e => inl e
                  | inr ps => py_iter ps
                  end)
        | Some (inl e) => Some (inl e)
        | None => None
        end
      with
      | None => (inr [], n)
      | Some (inl e) => (inl e, n)
      | Some (inr items) => palettes_loop uuid4 items [] n
      end).
  { unfold decoded. destruct (search_object text) as [m2|]; [|reflexivity].
    destruct (json_loads lim m2) as [data| |e]; [|reflexivity|reflexivity].
    unfold bind, lift.
    destruct (py_get data "palettes" (JArr [])) as [e|ps]; [reflexivity|].
    destruct (py_iter ps); reflexivity. }
  unfold parse_palette_response, candidates.
  unfold decoded at 1.
  destruct (search_array text) as [m|]; [|exact Hsecond].
  destruct (json_loads lim m) as [data| |e]; [|exact Hsecond|reflexivity].
  unfold bind, lift. destruct (py_iter data); reflexivity.
Qed.


(** C5, as the code has it. Every palette of a returned sequence comes from
    a candidate that is an object, with name "Palette", empty description
    and empty psychology for the absent keys and no colour when [colors] is
    absent; every colour comes from an object, with hex "#000000", name
    "Unknown" and usage "General" for the absent keys. *)
Theorem extracted_palettes_are_normalized text n ps n' :
  parse_palette_response uuid4 lim text n = (inr ps, n') ->
  exists items,
    (candidates lim text = Some (inr items) \/ (candidates lim text = None /\ items = []))
    /\ Forall2 palette_normalized items ps.
Proof.
  rewrite parse_palette_response_candidates.
  destruct (candidates lim text) as [[e|items]|] eqn:Ec.
  - discriminate.
  - intros H. apply palettes_loop_inr in H as (new & -> & _ & _ & Hall).
    exists items. split; [left; reflexivity|exact Hall].
  - intros [= <- <-]. exists []. split; [right; split; reflexivity|constructor].
Qed.

(** C6. The identifiers of the palettes of a returned sequence are the
    identifiers drawn from [uuid4] during the call, in order, whatever the
    text holds: an identifier that [uuid4] does not produce is the id of no
    palette, and the ids are pairwise distinct when those of [uuid4] are. *)
Theorem extracted_ids_are_fresh text n ps n' :
  parse_palette_response uuid4 lim text n = (inr ps, n') ->
  n' = n + length ps
  /\ map palette_id ps = map uuid4 (seq n (length ps))
  /\ (forall i, (forall k, uuid4 k <> i) -> Forall (fun p => palette_id p <> i) ps)
  /\ ((forall j k, uuid4 j = uuid4 k -> j = k) -> NoDup (map palette_id ps)).
Proof.
  rewrite parse_palette_response_candidates.
  intros H.
  assert (Hids : n' = n + length ps
                 /\ map palette_id ps = map uuid4 (seq n (length ps))).
  { destruct (candidates lim text) as [[e|items]|].
    - discriminate.
    - apply palettes_loop_inr in H as (new & -> & -> & Hids & _).
      cbn [app]. split; [reflexivity|exact Hids].
    - injection H as <- <-. split; [cbn; lia|reflexivity]. }
  destruct Hids as [Hn Hids]. split; [exact Hn|]. split; [exact Hids|]. split.
  - intros i Hi. apply List.Forall_forall. intros p Hp Heq.
    assert (Hin : In (palette_id p) (map palette_id ps)) by (apply in_map; exact Hp).
    rewrite Hids in Hin. apply in_map_iff in Hin as (k & Hk & _).
    apply (Hi k). congruence.
  - intros Hinj. rewrite Hids. apply NoDup_fmap_2; [|apply NoDup_seq].
    intros j k. apply Hinj.
Qed.

End ExtractFacts.

Section ExtractExamples.

Import Json Extract.
Open Scope list_scope.
Open Scope nat_scope.

(** The reply of a specification example: one palette, whose id is drawn
    and not the one the reply carries. *)
Example extract_one_palette :
  parse_palette_response sample_uuid4 sample_limits
    (q "[{'id':'given','name':'A','colors':[{'hex':'#111111','name':'X','usage':'Primary'}],'description':'d','psychology':'p'}]")
    0
  = (inr [{| palette_id := "uuid-0"; palette_name := "A";
             palette_description := "d";
             palette_colors := [{| color_hex := "#111111"; color_name := "X";
                                   color_usage := "Primary" |}];
             palette_psychology := "p" |}], 1).
Proof. vm_compute. reflexivity. Qed.

Example extract_without_brackets :
  parse_palette_response sample_uuid4 sample_limits "Sorry, I cannot help with that." 0 = (inr [], 0).
Proof. vm_compute. reflexivity. Qed.

(** Text between brackets that does not decode is passed over, and the
    object of the second attempt is read. *)
Example extract_second_attempt :
  parse_palette_response sample_uuid4 sample_limits
    (q "As in [1] and [2]: {'palettes': [{'name': 'B'}]} (see [3])") 0
  = (inr [{| palette_id := "uuid-0"; palette_name := "B";
             palette_description := ""; palette_colors := [];
             palette_psychology := "" |}], 1).
Proof. vm_compute. reflexivity. Qed.


(** An int literal of one digit more than the limit is not decoded: the
    [ValueError] of its conversion is not caught.  At the limit the array
    decodes, and its element is no object. *)
Example over_long_int_raises :
  json_loads sample_limits (long_int_reply 4301) = Raises ValueError
  /\ parse_palette_response sample_uuid4 sample_limits (long_int_reply 4301) 0
     = (inl ValueError, 0)
  /\ parse_palette_response sample_uuid4 sample_limits (long_int_reply 4300) 0
     = (inl AttributeError, 0).
Proof. repeat split; vm_compute; reflexivity. Qed.

(** Brackets opened one deeper than the interpreter recurses raise
    [RecursionError], which is not caught, before the scanner can find the
    text malformed; one bracket less, and the text is refused with
    [json.JSONDecodeError], which is. *)
Example deep_nesting_raises :
  json_loads sample_limits (deep_reply 901 +:+ "]") = Raises RecursionError
  /\ parse_palette_response sample_uuid4 sample_limits (deep_reply 901 +:+ "]") 0
     = (inl RecursionError, 0)
  /\ json_loads sample_limits (deep_reply 900 +:+ "]") = JSONDecodeError
  /\ parse_palette_response sample_uuid4 sample_limits (deep_reply 900 +:+ "]") 0
     = (inr [], 0).
Proof. repeat split; vm_compute; reflexivity. Qed.

(** C5, counterexample: a [colors] that is a number cannot be iterated; no
    palette with an empty colour sequence is built, [TypeError] is raised. *)
Lemma colors_not_iterable_raises :
  item_colors (JObj [("colors", JInt 5)]) = inl TypeError
  /\ parse_palette_response sample_uuid4 sample_limits (q "[{'name': 'A', 'colors': 5}]") 0
     = (inl TypeError, 0).
Proof. split; vm_compute; reflexivity. Qed.

Lemma extracted_palettes_are_normalized_witness :
  exists items,
    (candidates sample_limits (q "[{'colors':[{'hex':'#111111','name':'X'}]}]") = Some (inr items)
     \/ (candidates sample_limits (q "[{'colors':[{'hex':'#111111','name':'X'}]}]") = None
         /\ items = []))
    /\ Forall2 palette_normalized items
         [{| palette_id := "uuid-0"; palette_name := "Palette";
             palette_description := "";
             palette_colors := [{| color_hex := "#111111"; color_name := "X";
                                   color_usage := "General" |}];
             palette_psychology := "" |}].
Proof.
  apply (extracted_palettes_are_normalized sample_uuid4 sample_limits
           (q "[{'colors':[{'hex':'#111111','name':'X'}]}]") 0 _ 1).
  vm_compute. reflexivity.
Defined.

Lemma extracted_ids_are_fresh_witness :
  1 = 0 + length [sample_palette]
  /\ map palette_id [sample_palette] = map sample_uuid4 (seq 0 (length [sample_palette]))
  /\ (forall i, (forall k, sample_uuid4 k <> i) ->
        Forall (fun p => palette_id p <> i) [sample_palette])
  /\ ((forall j k, sample_uuid4 j = sample_uuid4 k -> j = k) ->
        NoDup (map palette_id [sample_palette])).
Proof.
  apply (extracted_ids_are_fresh sample_uuid4 sample_limits (q "[{'id':'given','name':'A'}]")
           0 [sample_palette] 1).
  vm_compute. reflexivity.
Defined.

End ExtractExamples.

(** ** Fallback catalog *)

Section CatalogFacts.

Import Json Extract Catalog.
Open Scope list_scope.
Open Scope nat_scope.

Variable uuid4 : nat -> string.

Lemma fallback_returns category n :
  exists ps, generate_fallback_palettes uuid4 category n = (inr ps, n + 7)
             /\ ps <> [].
Proof.
  replace (n + 7) with (S (S (S (S (S (S (S n))))))) by lia.
  unfold generate_fallback_palettes, literal_Palette, bind, ret, fresh_id.
  cbn [warm_appetite digital_trust professional_classic modern_minimal
       nature_inspired warm_sunset cool_ocean str_dict_get].
  destruct (String.eqb "Food & Beverage" category);
    [|destruct (String.eqb "Technology" category)];
    (eexists; split; [reflexivity|discriminate]).
Qed.

(** C7, as the code has it. [generate_fallback_palettes] reads nothing but
    its argument and the identifier source: for the key "Food & Beverage" it
    returns the one curated palette of that key, for "Technology" the one of
    that key, for any other string the five generic palettes; the list is
    never empty.  In name, description, psychology and colours the result is
    a function of the category alone; the ids are those the seven
    constructors draw at the call. *)
Theorem fallback_catalog_lookup (category : string) (n : nat) :
  exists ps,
    generate_fallback_palettes uuid4 category n = (inr ps, n + 7)
    /\ map data_of ps =
         (if String.eqb category "Food & Beverage" then [warm_appetite]
          else if String.eqb category "Technology" then [digital_trust]
          else [professional_classic; modern_minimal; nature_inspired;
                warm_sunset; cool_ocean])
    /\ map data_of ps = str_dict_get curated category generic_default
    /\ length generic_default = 5
    /\ ps <> []
    /\ map palette_id ps =
         (if String.eqb category "Food & Beverage" then [uuid4 n]
          else if String.eqb category "Technology" then [uuid4 (n + 1)]
          else map uuid4 (seq (n + 2) 5)).
Proof.
  replace (n + 7) with (S (S (S (S (S (S (S n))))))) by lia.
  replace (n + 1) with (S n) by lia.
  replace (n + 2) with (S (S n)) by lia.
  unfold generate_fallback_palettes, literal_Palette, bind, ret, fresh_id.
  cbn [warm_appetite digital_trust professional_classic modern_minimal
       nature_inspired warm_sunset cool_ocean str_dict_get curated].
  rewrite (String.eqb_sym "Food & Beverage" category),
          (String.eqb_sym "Technology" category).
  destruct (String.eqb category "Food & Beverage");
    [|destruct (String.eqb category "Technology")];
    (eexists; split; [reflexivity|]); repeat split; discriminate.
Qed.

End CatalogFacts.

(** ** Request handlers *)

Section GatewayFacts.

Import Quota Json Extract Catalog Gateway.
Open Scope list_scope.

Variable uuid4 : nat -> string.
Variable lim : limits.
Variable json_dumps : json -> string.
Variable py_str : json -> string.

Lemma append_assoc (a b c : string) : (a +:+ b) +:+ c = a +:+ (b +:+ c).
Proof.
  induction a as [|x a IH]; [reflexivity|].
  change (String x ((a +:+ b) +:+ c) = String x (a +:+ (b +:+ c))).
  f_equal. exact IH.
Qed.


Lemma generation_prompt_interpolation data :
  generation_prompt data = prompt_by_interpolation data.
Proof.
  unfold generation_prompt, prompt_by_interpolation, prompt_head, prompt_tail,
    brand_values_line, competitors_line.
  cbn [app String.concat schema_lines].
  rewrite !append_assoc. reflexivity.
Qed.

Lemma prompt_omission_when_present data :
  truthy (brand_values data) = true -> truthy (competitors data) = true ->
  prompt_by_interpolation data = prompt_by_omission data.
Proof.
  unfold prompt_by_interpolation, prompt_by_omission. intros -> ->. reflexivity.
Qed.

(** C9, as the code has it. The prompt is the lines of the template joined
    by line feeds, where the line after the Gender line is the brand-values
    instruction when [brand_values] is non-empty and the empty string
    otherwise, and the next line is the competitors instruction when
    [competitors] is non-empty and the empty string otherwise: the text of
    the instruction is left out for an empty field, and an empty line stands
    in its place.  With both fields non-empty this is the prompt with every
    line present. *)
Theorem optional_lines_are_interpolated data :
  generation_prompt data =
    String.concat nl
      (prompt_head data
       ++ [if truthy (brand_values data)
           then "- Brand Values: " +:+ str_of (brand_values data) else ""]
       ++ [if truthy (competitors data)
           then "- Competitors to differentiate from: " +:+ str_of (competitors data)
           else ""]
       ++ prompt_tail data)
  /\ (truthy (brand_values data) && truthy (competitors data) = true ->
      generation_prompt data = prompt_by_omission data).
Proof.
  split; [exact (generation_prompt_interpolation data)|].
  intros H. apply andb_prop in H as [Hb Hc].
  rewrite generation_prompt_interpolation.
  apply prompt_omission_when_present; assumption.
Qed.

(** C4. When the check allows the request and the key is configured, the
    handler returns a response whose [remaining_generations] is the count
    the check computed and whose palettes are the extracted ones when
    extraction returned at least one, and the fallback palettes of the
    request's category when the provider call raised, the response had no
    text, extraction returned none or extraction raised; the list is never
    empty, and the unit the check took stays taken.  (Without a key the
    handler raises the 500 of a missing configuration, the unit taken as
    well.) *)
Theorem generation_serves_and_consumes now ip data key gc rl (n : nat) remaining rl1 :
  check_rate_limit now ip "generation" rl = ((true, remaining), rl1) ->
  remaining = generations (effective_limits now ip rl) - 1
  /\ rl1 = <[ip := decrement Generation (effective_limits now ip rl)]> rl
  /\ if key_missing key then
       generate_palettes uuid4 lim now ip data key gc (rl, n)
       = (HTTPException 500 key_missing_detail, (rl1, n))
     else
       exists ps n',
         generate_palettes uuid4 lim now ip data key gc (rl, n)
         = (Returned {| palettes := ps; remaining_generations := remaining |},
            (rl1, n'))
         /\ ps <> []
         /\ match gc (generation_prompt data) with
            | ResponseText text =>
                match parse_palette_response uuid4 lim text n with
                | (inr (p :: l), n1) => ps = p :: l /\ n' = n1
                | (_, n1) =>
                    generate_fallback_palettes uuid4 (business_category data) n1
                    = (inr ps, n')
                end
            | _ =>
                generate_fallback_palettes uuid4 (business_category data) n
                = (inr ps, n')
            end.
Proof.
  intros Hcheck.
  pose proof (check_rate_limit_eq now ip Generation rl) as Heq.
  cbn [action_name counter] in Heq. rewrite Hcheck in Heq.
  destruct (generations (effective_limits now ip rl) <=? 0); [discriminate|].
  injection Heq as -> ->. split; [reflexivity|]. split; [reflexivity|].
  unfold generate_palettes. rewrite Hcheck. cbn [negb].
  destruct (key_missing key); [reflexivity|].
  assert (Hfb : forall m, exists ps n',
             generate_fallback_palettes uuid4 (business_category data) m = (inr ps, n')
             /\ ps <> []).
  { intros m. destruct (fallback_returns uuid4 (business_category data) m)
      as (ps & H & Hne). eauto. }
  destruct (gc (generation_prompt data)) as [| |text].
  - destruct (Hfb n) as (ps & n' & H & Hne). exists ps, n'. rewrite H. auto.
  - destruct (Hfb n) as (ps & n' & H & Hne). exists ps, n'. rewrite H. auto.
  - destruct (parse_palette_response uuid4 lim text n) as [[e|[|p l]] n1].
    + destruct (Hfb n1) as (ps & n' & H & Hne). exists ps, n'. rewrite H. auto.
    + destruct (Hfb n1) as (ps & n' & H & Hne). exists ps, n'. rewrite H. auto.
    + exists (p :: l), n1. repeat split. discriminate.
Qed.

(** C10. A refinement request of a client whose revision counter is
    positive takes one revision whatever happens next: the dict after the
    handler has the counter decremented by 1, and when the provider call
    raises the handler raises the 500 of a failed call, with the dict so
    decremented. *)
Theorem failed_refinement_consumes_a_revision now ip data key gc rl sys :
  0 < revisions (effective_limits now ip rl) ->
  snd (chat_with_ai json_dumps py_str now ip data key gc rl)
  = <[ip := decrement Revision (effective_limits now ip rl)]> rl
  /\ revisions (decrement Revision (effective_limits now ip rl))
     = revisions (effective_limits now ip rl) - 1
  /\ (key_missing key = false ->
      system_message json_dumps py_str data = inr sys ->
      gc sys (message data) = ProviderRaises ->
      chat_with_ai json_dumps py_str now ip data key gc rl
      = (HTTPException 500 "Failed to get AI response",
         <[ip := decrement Revision (effective_limits now ip rl)]> rl)).
Proof.
  intros Hpos.
  pose proof (check_rate_limit_eq now ip Revision rl) as Heq.
  cbn [action_name counter] in Heq.
  replace (revisions (effective_limits now ip rl) <=? 0) with false in Heq
    by (symmetry; apply Z.leb_gt; exact Hpos).
  unfold chat_with_ai. rewrite Heq. cbn [negb].
  split; [|split; [reflexivity|]].
  - destruct (key_missing key); [reflexivity|].
    destruct (system_message json_dumps py_str data) as [e|s]; [reflexivity|].
    destruct (gc s (message data)); reflexivity.
  - intros -> -> ->. reflexivity.
Qed.

End GatewayFacts.

(** ** Scenarios *)

Section Scenarios.

Import Quota Json Extract Catalog Gateway.
Open Scope list_scope.

(** The first consuming call of each kind leaves the cap less one. *)
Example first_generation_leaves_zero :
  fst (check_rate_limit 0 "10.0.0.1" "generation" ∅) = (true, 0).
Proof. reflexivity. Qed.

Example first_revision_leaves_two :
  fst (check_rate_limit 0 "10.0.0.1" "revision" ∅) = (true, 2).
Proof. reflexivity. Qed.

(** Once the counter is at 0 the next call within the window is refused, a
    status read in between changes nothing, and the call after the deadline
    is allowed again. *)
Example second_generation_is_refused :
  let rl1 := snd (check_rate_limit 0 "10.0.0.1" "generation" ∅) in
  let rl2 := snd (get_remaining_limits 5 "10.0.0.1" rl1) in
  fst (check_rate_limit 10 "10.0.0.1" "generation" rl2) = (false, 0)
  /\ fst (get_remaining_limits one_day "10.0.0.1" rl2)
     = {| generations_remaining := 1; revisions_remaining := 3;
          status_reset_time := one_day + one_day |}
  /\ fst (check_rate_limit one_day "10.0.0.1" "generation" rl2) = (true, 0).
Proof. repeat split; vm_compute; reflexivity. Qed.

(** A [limit_type] that is neither of the two is refused. *)
Example unknown_limit_type_is_refused :
  fst (check_rate_limit 0 "10.0.0.1" "export" ∅) = (false, 0).
Proof. reflexivity. Qed.

(** C9, counterexample: with [brand_values] empty and [competitors] absent
    the prompt has an empty seventh and an empty eighth line, two lines
    more than the prompt that leaves the lines out, and differs from it. *)
Lemma empty_optional_fields_leave_empty_lines :
  nth 6 (split_lines (generation_prompt request_without_optionals)) "?" = ""
  /\ nth 7 (split_lines (generation_prompt request_without_optionals)) "?" = ""
  /\ length (split_lines (generation_prompt request_without_optionals))
     = S (S (length (split_lines (prompt_by_omission request_without_optionals))))
  /\ generation_prompt request_without_optionals
     <> prompt_by_omission request_without_optionals.
Proof.
  split; [vm_compute; reflexivity|].
  split; [vm_compute; reflexivity|].
  split; [vm_compute; reflexivity|].
  intros H. apply (f_equal String.length) in H. apply Nat.eqb_eq in H.
  vm_compute in H. discriminate H.
Qed.

(** C7, counterexample: two calls in a row for the same category return
    palettes that differ, in their ids. *)
Lemma fallback_ids_change_between_calls :
  generate_fallback_palettes sample_uuid4 "Technology" 0%nat
  = (inr [with_id "uuid-1" digital_trust], 7%nat)
  /\ generate_fallback_palettes sample_uuid4 "Technology" 7%nat
     = (inr [with_id "uuid-8" digital_trust], 14%nat)
  /\ with_id "uuid-1" digital_trust <> with_id "uuid-8" digital_trust.
Proof.
  split; [vm_compute; reflexivity|].
  split; [vm_compute; reflexivity|].
  intros H. apply (f_equal palette_id) in H. vm_compute in H. discriminate H.
Qed.

Example both_optional_lines_present :
  nth 6 (split_lines (generation_prompt request_with_optionals)) "?"
  = "- Brand Values: cozy"
  /\ nth 7 (split_lines (generation_prompt request_with_optionals)) "?"
     = "- Competitors to differentiate from: Starbucks".
Proof. split; vm_compute; reflexivity. Qed.

(** Quota at the cap, the provider call fails: the response carries the
    fallback palette of the category and no generation is left; the second
    request of the window is refused. *)
Example generation_with_failing_provider :
  let '(out1, w1) :=
    generate_palettes sample_uuid4 sample_limits 0 "10.0.0.1" request_with_optionals
      (Some "key") failing_provider (∅, 0%nat) in
  let '(out2, _) :=
    generate_palettes sample_uuid4 sample_limits 1 "10.0.0.1" request_with_optionals
      (Some "key") failing_provider w1 in
  (exists p, out1 = Returned {| palettes := [p]; remaining_generations := 0 |}
             /\ data_of p = warm_appetite /\ palette_id p = "uuid-0")
  /\ out2 = HTTPException 429 generation_limit_detail.
Proof.
  vm_compute. split; [|reflexivity].
  eexists. split; [reflexivity|]. split; reflexivity.
Qed.

Lemma generation_serves_and_consumes_witness :
  0 = generations (effective_limits 0 "10.0.0.1" (∅ : gmap string user_limits)) - 1
  /\ <[ "10.0.0.1" := decrement Generation (fresh_limits 0) ]> (∅ : gmap string user_limits)
     = <[ "10.0.0.1" := decrement Generation (effective_limits 0 "10.0.0.1" (∅ : gmap string user_limits)) ]> (∅ : gmap string user_limits)
  /\ if key_missing (Some "key") then
       generate_palettes sample_uuid4 sample_limits 0 "10.0.0.1" request_with_optionals
         (Some "key") failing_provider ((∅ : gmap string user_limits), 0%nat)
       = (HTTPException 500 key_missing_detail,
          (<[ "10.0.0.1" := decrement Generation (fresh_limits 0) ]> (∅ : gmap string user_limits), 0%nat))
     else
       exists ps n',
         generate_palettes sample_uuid4 sample_limits 0 "10.0.0.1" request_with_optionals
           (Some "key") failing_provider ((∅ : gmap string user_limits), 0%nat)
         = (Returned {| palettes := ps; remaining_generations := 0 |},
            (<[ "10.0.0.1" := decrement Generation (fresh_limits 0) ]> (∅ : gmap string user_limits), n'))
         /\ ps <> []
         /\ match failing_provider (generation_prompt request_with_optionals) with
            | ResponseText text =>
                match parse_palette_response sample_uuid4 sample_limits text 0%nat with
                | (inr (p :: l), n1) => ps = p :: l /\ n' = n1
                | (_, n1) =>
                    generate_fallback_palettes sample_uuid4
                      (business_category request_with_optionals) n1
                    = (inr ps, n')
                end
            | _ =>
                generate_fallback_palettes sample_uuid4
                  (business_category request_with_optionals) 0%nat
                = (inr ps, n')
            end.
Proof.
  apply (generation_serves_and_consumes sample_uuid4 sample_limits 0 "10.0.0.1"
           request_with_optionals (Some "key") failing_provider (∅ : gmap string user_limits) 0%nat 0
           (<[ "10.0.0.1" := decrement Generation (fresh_limits 0) ]> (∅ : gmap string user_limits))).
  unfold check_rate_limit. rewrite lookup_empty. simpl.
  rewrite lookup_insert_eq. simpl. rewrite insert_insert_eq. reflexivity.
Defined.

Lemma failed_refinement_consumes_a_revision_witness :
  snd (chat_with_ai (fun _ => "[]") (fun _ => "") 0 "10.0.0.1" sample_chat
         (Some "key") failing_chat (∅ : gmap string user_limits))
  = <[ "10.0.0.1" := decrement Revision (effective_limits 0 "10.0.0.1" (∅ : gmap string user_limits)) ]> (∅ : gmap string user_limits)
  /\ revisions (decrement Revision (effective_limits 0 "10.0.0.1" (∅ : gmap string user_limits)))
     = revisions (effective_limits 0 "10.0.0.1" (∅ : gmap string user_limits)) - 1
  /\ (key_missing (Some "key") = false ->
      system_message (fun _ => "[]") (fun _ => "") sample_chat
      = inr sample_system_message ->
      failing_chat sample_system_message (message sample_chat) = ProviderRaises ->
      chat_with_ai (fun _ => "[]") (fun _ => "") 0 "10.0.0.1" sample_chat
        (Some "key") failing_chat (∅ : gmap string user_limits)
      = (HTTPException 500 "Failed to get AI response",
         <[ "10.0.0.1" := decrement Revision (effective_limits 0 "10.0.0.1" (∅ : gmap string user_limits)) ]> (∅ : gmap string user_limits))).
Proof.
  apply (failed_refinement_consumes_a_revision (fun _ => "[]") (fun _ => "")
           0 "10.0.0.1" sample_chat (Some "key") failing_chat
           (∅ : gmap string user_limits) sample_system_message).
  vm_compute. reflexivity.
Defined.

(** The refinement of the scenario above does end in the 500 of a failed
    call, with two revisions left of three; the system message is the one
    the scenario names, and the provider fails on it. *)
Example refinement_with_failing_provider :
  let '(out, rl) :=
    chat_with_ai (fun _ => "[]") (fun _ => "") 0 "10.0.0.1" sample_chat
      (Some "key") failing_chat ∅ in
  out = HTTPException 500 "Failed to get AI response"
  /\ revisions <$> rl !! "10.0.0.1" = Some 2
  /\ system_message (fun _ => "[]") (fun _ => "") sample_chat
     = inr sample_system_message
  /\ failing_chat sample_system_message (message sample_chat) = ProviderRaises.
Proof. vm_compute. repeat split; reflexivity. Qed.

End Scenarios.

(** * Further properties *)

(** ** Quota tracker, over runs *)

Section QuotaRunFacts.

Import Quota QuotaRuns.
Open Scope list_scope.

Implicit Types (rl : gmap string user_limits) (ul : user_limits).

(** The record of [ip] after a check, whatever the [limit_type]. *)
Lemma check_rate_limit_record now ip lt rl :
  exists r', snd (check_rate_limit now ip lt rl) !! ip = Some r'
    /\ reset_time r' = reset_time (effective_limits now ip rl)
    /\ (String.eqb lt "generation" = false ->
        generations r' = generations (effective_limits now ip rl))
    /\ (String.eqb lt "generation" = true \/ String.eqb lt "revision" = false ->
        revisions r' = revisions (effective_limits now ip rl)).
Proof.
  unfold check_rate_limit, effective_limits.
  destruct (rl !! ip) as [r|] eqn:Hip.
  - rewrite Hip. simpl.
    destruct (now >=? reset_time r); simpl;
      repeat match goal with
             | |- context [if ?b then _ else _] => destruct b eqn:?; simpl
             end;
      rewrite ?lookup_insert_eq, ?Hip; eexists; (split; [reflexivity|]);
      simpl; repeat split; intros; try reflexivity;
      repeat match goal with H : _ \/ _ |- _ => destruct H end; congruence.
  - rewrite lookup_insert_eq. simpl. rewrite fresh_not_due.
    repeat match goal with
           | |- context [if ?b then _ else _] => destruct b eqn:?; simpl
           end;
      rewrite ?lookup_insert_eq; eexists; (split; [reflexivity|]);
      simpl; repeat split; intros; try reflexivity;
      repeat match goal with H : _ \/ _ |- _ => destruct H end; congruence.
Qed.

Lemma effective_limits_deadline now ip rl :
  now < reset_time (effective_limits now ip rl).
Proof.
  unfold effective_limits, fresh_limits, one_day.
  destruct (rl !! ip) as [r|]; [destruct (now >=? reset_time r) eqn:E|]; simpl; lia.
Qed.

(** A record that is stored and not yet due is the record a check works on. *)
Lemma effective_limits_stored now ip rl r :
  rl !! ip = Some r -> now < reset_time r -> effective_limits now ip rl = r.
Proof.
  intros Hip Hlt. unfold effective_limits. rewrite Hip.
  replace (now >=? reset_time r) with false by lia.
  reflexivity.
Qed.

(** X1. A run of operations changes the records of the clients it names
    only: the record of a client that no operation of the run is about is
    after the run what it was before, be it absent. *)
Theorem run_leaves_other_clients (ops : list quota_op) rl (ip : string) :
  Forall (fun op => op_client op <> ip) ops ->
  run_ops ops rl !! ip = rl !! ip.
Proof.
  unfold run_ops. revert rl.
  induction ops as [|op ops IH]; intros rl Hall; [reflexivity|].
  inversion Hall as [|? ? Hop Hrest]; subst. simpl.
  rewrite IH by exact Hrest.
  destruct op as [now ip0 lt | now ip0]; simpl in *.
  - apply check_rate_limit_frame. exact Hop.
  - rewrite get_remaining_limits_store. reflexivity.
Qed.

Lemma run_leaves_other_clients_witness :
  run_ops [OpCheck 0 "10.0.0.1" "generation"; OpStatus 3 "10.0.0.3";
           OpCheck 5 "10.0.0.1" "revision"]
          (<[ "10.0.0.2" := {| generations := 0; revisions := 2; reset_time := 9 |} ]> ∅)
    !! "10.0.0.2"
  = (<[ "10.0.0.2" := {| generations := 0; revisions := 2; reset_time := 9 |} ]>
       (∅ : gmap string user_limits)) !! "10.0.0.2".
Proof.
  apply run_leaves_other_clients.
  repeat constructor; simpl; discriminate.
Defined.

(** X2. The two counters are metered apart: a check for one action leaves
    the other counter and the deadline of the record it works on as they
    are, whether the check is allowed or refused. *)
Theorem check_leaves_other_counter now ip (a : action) rl :
  exists r', snd (check_rate_limit now ip (action_name a) rl) !! ip = Some r'
    /\ counter (other a) r' = counter (other a) (effective_limits now ip rl)
    /\ reset_time r' = reset_time (effective_limits now ip rl).
Proof.
  destruct (check_rate_limit_record now ip (action_name a) rl)
    as (r' & Hr' & Hreset & Hgen & Hrev).
  exists r'. split; [exact Hr'|]. split; [|exact Hreset].
  destruct a; cbn [other counter action_name] in *.
  - apply Hrev. left. reflexivity.
  - apply Hgen. reflexivity.
Qed.

(** X3. A [limit_type] that is neither "generation" nor "revision" is
    refused with [(False, 0)], and the call still does the lazy creation
    and the lazy reset: after it the client has the record a check works on,
    with both counters untouched. *)
Theorem unknown_limit_type_still_creates now ip lt rl :
  lt <> "generation" -> lt <> "revision" ->
  check_rate_limit now ip lt rl
  = ((false, 0), <[ip := effective_limits now ip rl]> rl).
Proof.
  intros Hg Hr.
  apply String.eqb_neq in Hg. apply String.eqb_neq in Hr.
  unfold check_rate_limit, effective_limits. rewrite Hg, Hr.
  destruct (rl !! ip) as [r|] eqn:Hip.
  - rewrite Hip. simpl. destruct (now >=? reset_time r); [reflexivity|].
    rewrite insert_id by exact Hip. reflexivity.
  - rewrite lookup_insert_eq. simpl. rewrite fresh_not_due.
    reflexivity.
Qed.

Lemma unknown_limit_type_still_creates_witness :
  check_rate_limit 7 "10.0.0.1" "export" ∅
  = ((false, 0), <[ "10.0.0.1" := effective_limits 7 "10.0.0.1" ∅ ]> ∅).
Proof. apply unknown_limit_type_still_creates; discriminate. Defined.

(** X4. Deadlines lie ahead: after a check at [now] the record of the
    client has a deadline later than [now], and the reset time a status
    read at [now] reports is later than [now], whatever was stored. *)
Theorem deadlines_lie_ahead now ip lt rl :
  (exists r', snd (check_rate_limit now ip lt rl) !! ip = Some r'
              /\ now < reset_time r')
  /\ now < status_reset_time (fst (get_remaining_limits now ip rl)).
Proof.
  split.
  - destruct (check_rate_limit_record now ip lt rl) as (r' & Hr' & Hreset & _).
    exists r'. split; [exact Hr'|]. rewrite Hreset. apply effective_limits_deadline.
  - pose proof (effective_limits_deadline now ip rl) as H.
    unfold get_remaining_limits, effective_limits in *.
    destruct (rl !! ip) as [r|]; [destruct (now >=? reset_time r)|]; exact H.
Qed.

(** A series of checks before the deadline, from a stored record. *)
Lemma check_series_stored (a : action) ip (times : list Z) : forall rl r,
  rl !! ip = Some r ->
  Forall (fun t => t < reset_time r) times ->
  fst (check_series a ip times rl)
  = map (fun i => Z.of_nat i <? counter a r) (seq 0 (length times)).
Proof.
  induction times as [|now times IH]; intros rl r Hip Hall; [reflexivity|].
  inversion Hall as [|? ? Hnow Hrest]; subst.
  cbn [check_series]. rewrite check_rate_limit_eq.
  rewrite (effective_limits_stored now ip rl r Hip Hnow).
  destruct (counter a r <=? 0) eqn:Ec.
  - specialize (IH rl r Hip Hrest).
    destruct (check_series a ip times rl) as [answers rl2]. cbn [fst] in *.
    rewrite IH. cbn [length seq map]. f_equal.
    + symmetry. apply Z.ltb_ge. lia.
    + rewrite <- seq_shift, map_map. apply map_ext_in. intros i _.
      assert (counter a r <= 0) by lia.
      apply Bool.eq_iff_eq_true. rewrite !Z.ltb_lt. lia.
  - assert (Hip' : <[ip := decrement a r]> rl !! ip = Some (decrement a r))
      by apply lookup_insert_eq.
    assert (Hrest' : Forall (fun t => t < reset_time (decrement a r)) times)
      by (destruct a; exact Hrest).
    specialize (IH _ _ Hip' Hrest').
    destruct (check_series a ip times (<[ip := decrement a r]> rl)) as [answers rl2].
    cbn [fst] in *. rewrite IH. cbn [length seq map]. f_equal.
    + symmetry. apply Z.ltb_lt. lia.
    + rewrite <- seq_shift, map_map. apply map_ext_in. intros i _.
      assert (Hc : counter a (decrement a r) = counter a r - 1) by (destruct a; reflexivity).
      rewrite Hc.
      apply Bool.eq_iff_eq_true. rewrite !Z.ltb_lt. lia.
Qed.

(** X5. The cap holds over a window: of the checks a client makes for one
    action, the first at any time and the others before the deadline that
    the first one works with, exactly the first [counter] ones are allowed
    (1 generation and 3 revisions for a client unseen or past its deadline)
    and all the later ones are refused. *)
Theorem window_allows_the_counter (a : action) ip now (times : list Z) rl :
  Forall (fun t => t < reset_time (effective_limits now ip rl)) times ->
  fst (check_series a ip (now :: times) rl)
  = map (fun i => Z.of_nat i <? counter a (effective_limits now ip rl))
        (seq 0 (S (length times))).
Proof.
  intros Hall.
  destruct (check_rate_limit_record now ip (action_name a) rl)
    as (r' & Hr' & Hreset & _).
  assert (Hall' : Forall (fun t => t < reset_time r') times)
    by (rewrite Hreset; exact Hall).
  pose proof (check_series_stored a ip times _ r' Hr' Hall') as Hs.
  cbn [check_series]. rewrite check_rate_limit_eq in *.
  destruct (counter a (effective_limits now ip rl) <=? 0) eqn:Ec.
  - cbn [snd] in Hr', Hs.
    destruct (check_series a ip times rl) as [answers rl2]. cbn [fst] in *.
    rewrite Hs. cbn [seq map]. f_equal.
    + symmetry. apply Z.ltb_ge. lia.
    + assert (Hr : counter a r' <= 0).
      { (* refused: the stored record is the one the check worked on *)
        pose proof (effective_limits_deadline now ip rl) as Hd.
        unfold effective_limits in *. rewrite Hr' in *.
        destruct (now >=? reset_time r') eqn:Edue.
        - destruct a; simpl in Ec; lia.
        - lia. }
      rewrite <- seq_shift, map_map. apply map_ext_in. intros i _.
      apply Bool.eq_iff_eq_true. rewrite !Z.ltb_lt. lia.
  - cbn [snd] in Hr', Hs. rewrite lookup_insert_eq in Hr'. injection Hr' as <-.
    destruct (check_series a ip times
                (<[ip := decrement a (effective_limits now ip rl)]> rl))
      as [answers rl2].
    cbn [fst] in *. rewrite Hs. cbn [seq map]. f_equal.
    + symmetry. apply Z.ltb_lt. lia.
    + rewrite <- seq_shift, map_map. apply map_ext_in. intros i _.
      assert (Hc : counter a (decrement a (effective_limits now ip rl))
                   = counter a (effective_limits now ip rl) - 1)
        by (destruct a; reflexivity).
      rewrite Hc.
      apply Bool.eq_iff_eq_true. rewrite !Z.ltb_lt. lia.
Qed.

Lemma window_allows_the_counter_witness :
  fst (check_series Revision "10.0.0.1" [0; 10; 20; 30; 40] ∅)
  = map (fun i => Z.of_nat i <? counter Revision (effective_limits 0 "10.0.0.1" ∅))
        (seq 0 (S (length [10; 20; 30; 40]))).
Proof.
  apply window_allows_the_counter.
  repeat constructor; vm_compute; reflexivity.
Defined.

(** X6. A status read after an allowed check, at a time before the
    deadline, reports for the action the remaining count the check
    returned. *)
Theorem status_after_check_agrees now now' ip (a : action) rl remaining rl' :
  check_rate_limit now ip (action_name a) rl = ((true, remaining), rl') ->
  now' < reset_time (effective_limits now ip rl) ->
  status_counter a (fst (get_remaining_limits now' ip rl')) = remaining.
Proof.
  intros Hcheck Hlt. rewrite check_rate_limit_eq in Hcheck.
  destruct (counter a (effective_limits now ip rl) <=? 0); [discriminate|].
  injection Hcheck as <- <-.
  unfold get_remaining_limits. rewrite lookup_insert_eq.
  assert (Hr : reset_time (decrement a (effective_limits now ip rl))
               = reset_time (effective_limits now ip rl))
    by (destruct a; reflexivity).
  rewrite Hr.
  replace (now' >=? reset_time (effective_limits now ip rl)) with false
    by lia.
  destruct a; reflexivity.
Qed.

Lemma status_after_check_agrees_witness :
  status_counter Revision
    (fst (get_remaining_limits 5 "10.0.0.1"
            (<[ "10.0.0.1" := decrement Revision (fresh_limits 0) ]> ∅)))
  = 2.
Proof.
  apply (status_after_check_agrees 0 5 "10.0.0.1" Revision ∅).
  - vm_compute. reflexivity.
  - vm_compute. reflexivity.
Defined.

(** X7. Records are created by checks and never deleted: after a run the
    clients with a record are those that had one and those a check of the
    run was about; a status read adds none. *)
Theorem records_are_never_deleted (ops : list quota_op) rl :
  dom (run_ops ops rl) = dom rl ∪ checked_clients ops.
Proof.
  unfold run_ops. revert rl.
  induction ops as [|op ops IH]; intros rl; simpl;
    [symmetry; apply (right_id_L ∅ (∪))|].
  rewrite IH. destruct op as [now ip lt | now ip]; simpl.
  - assert (Hdom : dom (snd (check_rate_limit now ip lt rl)) = dom rl ∪ {[ ip ]}).
    { apply set_eq. intros i. rewrite elem_of_union, !elem_of_dom, elem_of_singleton.
      destruct (decide (ip = i)) as [<-|Hne].
      - destruct (check_rate_limit_record now ip lt rl) as (r' & Hr' & _).
        rewrite Hr'. split; [auto|eauto].
      - rewrite check_rate_limit_frame by exact Hne. split; [auto|].
        intros [H|H]; [exact H|congruence]. }
    rewrite Hdom. symmetry. apply (assoc_L (∪)).
  - rewrite get_remaining_limits_store. reflexivity.
Qed.

End QuotaRunFacts.

(** ** Client identifier *)

Section HttpFacts.

Import Json Extract Http.
Open Scope list_scope.

Lemma before_comma_no_comma s : occurs "," (before_comma s) = false.
Proof.
  induction s as [|c s IH]; [reflexivity|]. cbn [before_comma].
  destruct (Ascii.eqb c ",") eqn:E; [reflexivity|].
  cbn [occurs]. rewrite E. exact IH.
Qed.

Lemma before_comma_append s rest :
  occurs "," s = false -> before_comma (s +:+ String "," rest) = s.
Proof.
  induction s as [|c s IH]; [reflexivity|]. cbn [occurs].
  destruct (Ascii.eqb c ",") eqn:E; [discriminate|]. cbn [orb]. intros H.
  rewrite append_cons. cbn [before_comma]. rewrite E, IH by exact H. reflexivity.
Qed.

Lemma before_comma_id s : occurs "," s = false -> before_comma s = s.
Proof.
  induction s as [|c s IH]; [reflexivity|]. cbn [occurs before_comma].
  destruct (Ascii.eqb c ","); [discriminate|]. cbn [orb]. intros H.
  rewrite IH by exact H. reflexivity.
Qed.

Lemma lstrip_no_comma s : occurs "," s = false -> occurs "," (lstrip s) = false.
Proof.
  induction s as [|c s IH]; [reflexivity|]. cbn [lstrip occurs].
  destruct (Ascii.eqb c ",") eqn:E; [discriminate|]. cbn [orb]. intros H.
  destruct (is_space c); [apply IH, H|]. cbn [occurs]. rewrite E. exact H.
Qed.

Lemma rstrip_no_comma s : occurs "," s = false -> occurs "," (rstrip s) = false.
Proof.
  induction s as [|c s IH]; [reflexivity|]. cbn [rstrip occurs].
  destruct (Ascii.eqb c ",") eqn:E; [discriminate|]. cbn [orb]. intros H.
  specialize (IH H). destruct (rstrip s) as [|c' s'].
  - destruct (is_space c); [reflexivity|]. cbn [occurs]. rewrite E. reflexivity.
  - cbn [occurs] in *. rewrite E. exact IH.
Qed.

Lemma lstrip_first s c : first_char (lstrip s) = Some c -> is_space c = false.
Proof.
  induction s as [|a s IH]; [discriminate|]. cbn [lstrip].
  destruct (is_space a) eqn:E; [exact IH|]. intros [= <-]. exact E.
Qed.

Lemma rstrip_first s c :
  first_char (rstrip s) = Some c -> first_char s = Some c.
Proof.
  destruct s as [|a s]; [discriminate|]. cbn [rstrip first_char].
  destruct (rstrip s); [destruct (is_space a); [discriminate|]|]; exact id.
Qed.

Lemma rstrip_last s c : last_char (rstrip s) = Some c -> is_space c = false.
Proof.
  induction s as [|a s IH]; [discriminate|]. cbn [rstrip].
  destruct (rstrip s) as [|c' s'] eqn:E.
  - destruct (is_space a) eqn:Ea; [discriminate|]. intros [= <-]. exact Ea.
  - exact IH.
Qed.

Lemma strip_trimmed s : trimmed (strip s).
Proof.
  unfold strip. split; intros c H.
  - apply rstrip_first in H. apply lstrip_first in H. exact H.
  - apply rstrip_last in H. exact H.
Qed.

Lemma lstrip_id s :
  (forall c, first_char s = Some c -> is_space c = false) -> lstrip s = s.
Proof.
  destruct s as [|a s]; [reflexivity|]. intros H. cbn [lstrip].
  rewrite (H a eq_refl). reflexivity.
Qed.

Lemma rstrip_id s :
  (forall c, last_char s = Some c -> is_space c = false) -> rstrip s = s.
Proof.
  induction s as [|a s IH]; [reflexivity|]. intros H. cbn [rstrip].
  destruct s as [|b s].
  - cbn [rstrip]. rewrite (H a eq_refl). reflexivity.
  - rewrite IH by (intros c Hc; apply H; exact Hc). reflexivity.
Qed.

(** X8. With a non-empty x-forwarded-for header the identifier is taken
    from the header alone: it holds no comma and has no white space at
    either end, whatever the header holds and whoever the peer is. *)
Theorem forwarded_identifier_is_clean (header : string) (host : option string) :
  header <> "" ->
  let ip := get_client_ip {| forwarded_for := Some header; client_host := host |} in
  occurs "," ip = false /\ trimmed ip /\ ip = strip (before_comma header).
Proof.
  intros Hne. cbv zeta. unfold get_client_ip. cbn [forwarded_for].
  destruct header as [|c rest]; [contradiction|].
  split; [|split; [apply strip_trimmed|reflexivity]].
  unfold strip. apply rstrip_no_comma, lstrip_no_comma, before_comma_no_comma.
Qed.

Lemma forwarded_identifier_is_clean_witness :
  let ip := get_client_ip {| forwarded_for := Some " 203.0.113.7 , 10.0.0.1";
                             client_host := Some "10.0.0.1" |} in
  occurs "," ip = false /\ trimmed ip
  /\ ip = strip (before_comma " 203.0.113.7 , 10.0.0.1").
Proof. apply forwarded_identifier_is_clean. discriminate. Defined.

(** X9. Only the first entry of the header counts: for an entry that is
    non-empty, holds no comma and is trimmed, the identifier is that entry,
    whatever entries follow it after a comma and whoever the peer is. *)
Theorem first_forwarded_entry_identifies (entry more : string) (host : option string) :
  entry <> "" -> occurs "," entry = false -> trimmed entry ->
  get_client_ip {| forwarded_for := Some (entry +:+ String "," more);
                   client_host := host |} = entry
  /\ get_client_ip {| forwarded_for := Some entry; client_host := host |} = entry.
Proof.
  intros Hne Hcomma [Hfirst Hlast]. unfold get_client_ip. cbn [forwarded_for].
  destruct entry as [|c rest]; [contradiction|].
  rewrite append_cons. rewrite <- append_cons.
  split.
  - rewrite append_cons.
    change (strip (before_comma (String c rest +:+ String "," more)) = String c rest).
    rewrite before_comma_append by exact Hcomma.
    unfold strip. rewrite lstrip_id by exact Hfirst. apply rstrip_id, Hlast.
  - rewrite before_comma_id by exact Hcomma.
    unfold strip. rewrite lstrip_id by exact Hfirst. apply rstrip_id, Hlast.
Qed.

Lemma first_forwarded_entry_identifies_witness :
  get_client_ip {| forwarded_for := Some ("203.0.113.7" +:+ String "," " 10.0.0.1");
                   client_host := Some "10.0.0.1" |} = "203.0.113.7"
  /\ get_client_ip {| forwarded_for := Some "203.0.113.7";
                      client_host := Some "10.0.0.1" |} = "203.0.113.7".
Proof.
  apply first_forwarded_entry_identifies.
  - discriminate.
  - reflexivity.
  - split; intros c [= <-]; reflexivity.
Defined.

Lemma blank_no_comma s : lstrip s = "" -> occurs "," s = false.
Proof.
  induction s as [|c s IH]; [reflexivity|]. cbn [lstrip occurs].
  destruct (is_space c) eqn:Es; [|discriminate]. intros H.
  destruct (Ascii.eqb c ",") eqn:E.
  - apply Ascii.eqb_eq in E. subst c. discriminate Es.
  - apply IH, H.
Qed.

(** X10. A header whose first entry is blank (empty or white space only,
    then a comma) gives the empty identifier, whatever follows the comma:
    the host of the peer is not consulted, unlike for a request without the
    header or with an empty one, which is identified by the host of its
    peer, or by "unknown" without a peer. *)
Theorem blank_first_entry_gives_empty_identifier
    (blank more : string) (host : option string) :
  lstrip blank = "" ->
  get_client_ip {| forwarded_for := Some (blank +:+ String "," more);
                   client_host := host |} = ""
  /\ get_client_ip {| forwarded_for := Some ""; client_host := host |}
     = default "unknown" host
  /\ get_client_ip {| forwarded_for := None; client_host := host |}
     = default "unknown" host.
Proof.
  intros Hblank. split; [|split; destruct host; reflexivity].
  unfold get_client_ip. cbn [forwarded_for].
  destruct (blank +:+ String "," more) as [|c rest] eqn:E.
  - destruct blank; discriminate E.
  - rewrite <- E. rewrite before_comma_append by (apply blank_no_comma, Hblank).
    unfold strip. rewrite Hblank. reflexivity.
Qed.

Lemma blank_first_entry_gives_empty_identifier_witness :
  get_client_ip {| forwarded_for := Some ("  " +:+ String "," "203.0.113.7");
                   client_host := Some "10.0.0.1" |} = ""
  /\ get_client_ip {| forwarded_for := Some ""; client_host := Some "10.0.0.1" |}
     = default "unknown" (Some "10.0.0.1")
  /\ get_client_ip {| forwarded_for := None; client_host := Some "10.0.0.1" |}
     = default "unknown" (Some "10.0.0.1").
Proof. apply blank_first_entry_gives_empty_identifier. reflexivity. Defined.

End HttpFacts.

(** ** Extraction, further *)

Section ExtractMoreFacts.

Import Json Extract.
Open Scope list_scope.
Open Scope nat_scope.

Variable uuid4 : nat -> string.
Variable lim : limits.

Lemma str_field_agree d d' key dflt :
  dict_lookup d key = dict_lookup d' key ->
  str_field d key dflt = str_field d' key dflt.
Proof. unfold str_field. intros ->. reflexivity. Qed.

(** X11. A candidate is read through four keys only: two objects with the
    same [name], [description], [psychology] and [colors] give the same
    palette, and raise alike, whatever else they hold; an [id] among the
    keys changes nothing. *)
Theorem palette_reads_four_keys d d' n :
  dict_lookup d "name" = dict_lookup d' "name" ->
  dict_lookup d "description" = dict_lookup d' "description" ->
  dict_lookup d "psychology" = dict_lookup d' "psychology" ->
  dict_lookup d "colors" = dict_lookup d' "colors" ->
  item_palette uuid4 (JObj d) n = item_palette uuid4 (JObj d') n.
Proof.
  intros Hn Hd Hp Hc. rewrite !item_palette_dict, !item_colors_dict.
  unfold dict_get. rewrite Hc.
  rewrite (str_field_agree _ _ "name" "Palette" Hn),
          (str_field_agree _ _ "description" "" Hd),
          (str_field_agree _ _ "psychology" "" Hp).
  reflexivity.
Qed.

Lemma from_first_absent c s : occurs c s = false -> from_first c s = None.
Proof.
  induction s as [|a s IH]; [reflexivity|]. cbn [occurs from_first].
  destruct (Ascii.eqb a c); [discriminate|]. exact IH.
Qed.

Lemma from_first_append c pre t :
  occurs c pre = false -> from_first c (pre +:+ String c t) = Some (String c t).
Proof.
  induction pre as [|a pre IH]; intros H.
  - change (from_first c (String c t) = Some (String c t)).
    cbn [from_first]. rewrite Ascii.eqb_refl. reflexivity.
  - cbn [occurs] in H. rewrite append_cons. cbn [from_first].
    destruct (Ascii.eqb a c); [discriminate|]. apply IH, H.
Qed.

Lemma upto_last_absent c s : occurs c s = false -> upto_last c s = None.
Proof.
  induction s as [|a s IH]; [reflexivity|]. cbn [occurs upto_last].
  destruct (Ascii.eqb a c); [discriminate|]. intros H. rewrite IH by exact H.
  reflexivity.
Qed.

Lemma upto_last_append c p post :
  occurs c post = false ->
  upto_last c (p +:+ String c post) = Some (p +:+ String c EmptyString).
Proof.
  intros H. induction p as [|a p IH].
  - change (upto_last c (String c post) = Some (String c EmptyString)).
    cbn [upto_last]. rewrite (upto_last_absent c post H), Ascii.eqb_refl.
    reflexivity.
  - rewrite !append_cons. cbn [upto_last]. rewrite IH. reflexivity.
Qed.

Lemma search_array_found pre mid post :
  occurs "[" pre = false -> occurs "]" post = false ->
  search_array (pre +:+ (String "[" mid +:+ "]") +:+ post)
  = Some (String "[" mid +:+ "]").
Proof.
  intros Hpre Hpost. unfold search_array.
  assert (E : (String "[" mid +:+ "]") +:+ post
              = String "[" (mid +:+ String "]" post))
    by (rewrite append_assoc; reflexivity).
  rewrite E, from_first_append by exact Hpre.
  change (String "[" (mid +:+ String "]" post))
    with (String "[" mid +:+ String "]" post).
  apply upto_last_append. exact Hpost.
Qed.

Lemma search_array_alone mid :
  search_array (String "[" mid +:+ "]") = Some (String "[" mid +:+ "]").
Proof.
  unfold search_array. rewrite append_cons. cbn [from_first].
  rewrite Ascii.eqb_refl. rewrite <- append_cons.
  apply (upto_last_append "]" (String "[" mid) ""). reflexivity.
Qed.

(** X12. Prose around the array is passed over: when the reply is an array
    text that decodes, with text before it that holds no opening bracket
    and text after it that holds no closing bracket, extraction gives what
    it gives on the array text alone. *)
Theorem prose_around_the_array_is_ignored pre mid post data n :
  occurs "[" pre = false -> occurs "]" post = false ->
  json_loads lim (String "[" mid +:+ "]") = Decoded data ->
  parse_palette_response uuid4 lim (pre +:+ (String "[" mid +:+ "]") +:+ post) n
  = parse_palette_response uuid4 lim (String "[" mid +:+ "]") n.
Proof.
  intros Hpre Hpost Hdata.
  pose proof (search_array_found pre mid post Hpre Hpost) as Hfull.
  pose proof (search_array_alone mid) as Halone.
  unfold parse_palette_response. rewrite Hfull, Halone, Hdata. reflexivity.
Qed.

(** X13. A reply that holds neither an opening bracket nor an opening brace
    gives the empty sequence: nothing is decoded, nothing is raised, and no
    identifier is drawn. *)
Theorem reply_without_json_gives_nothing text n :
  occurs "[" text = false -> occurs "{" text = false ->
  parse_palette_response uuid4 lim text n = (inr [], n).
Proof.
  intros Harr Hobj. unfold parse_palette_response, search_array, search_object.
  rewrite (from_first_absent _ _ Harr), (from_first_absent _ _ Hobj). reflexivity.
Qed.

(** The counter of identifiers never goes back, and a returned sequence
    carries identifiers drawn in between. *)
Lemma palettes_loop_counter items : forall acc n,
  n <= snd (palettes_loop uuid4 items acc n).
Proof.
  induction items as [|item items IH]; intros acc n; [cbn; lia|].
  cbn [palettes_loop]. unfold bind.
  destruct (item_palette uuid4 item n) as [[e|p] n1] eqn:E.
  - cbn [snd]. destruct item as [| | | | | |d]; try (injection E as _ <-; lia).
    rewrite item_palette_dict in E.
    destruct (item_colors (JObj d)); [injection E as _ <-; lia|].
    destruct (str_field d "name" "Palette"), (str_field d "description" ""),
      (str_field d "psychology" ""); injection E as _ <-; lia.
  - apply item_palette_inr in E as (-> & _). specialize (IH (acc ++ [p]) (S n)). lia.
Qed.

Lemma parse_palette_response_counter text n :
  n <= snd (parse_palette_response uuid4 lim text n).
Proof.
  rewrite parse_palette_response_candidates.
  destruct (candidates lim text) as [[e|items]|]; cbn [snd]; try lia.
  apply palettes_loop_counter.
Qed.

End ExtractMoreFacts.

Section ExtractMoreWitnesses.

Import Json Extract.
Open Scope list_scope.
Open Scope nat_scope.

Lemma prose_around_the_array_is_ignored_witness :
  parse_palette_response sample_uuid4 sample_limits
    (q "Here you go: " +:+ (String "[" (q "{'name':'A'}") +:+ "]") +:+ " Enjoy!") 0
  = parse_palette_response sample_uuid4 sample_limits (String "[" (q "{'name':'A'}") +:+ "]") 0.
Proof.
  apply (prose_around_the_array_is_ignored sample_uuid4 sample_limits _ _ _
           (JArr [JObj [("name", JStr "A")]])).
  - reflexivity.
  - reflexivity.
  - vm_compute. reflexivity.
Defined.

Lemma reply_without_json_gives_nothing_witness :
  parse_palette_response sample_uuid4 sample_limits "I cannot help with that request." 0
  = (inr [], 0).
Proof. apply reply_without_json_gives_nothing; reflexivity. Defined.

End ExtractMoreWitnesses.

(** ** Catalog, further *)

Section CatalogMoreFacts.

Import Json Extract Catalog Schema.
Open Scope list_scope.
Open Scope nat_scope.

Variable uuid4 : nat -> string.

(** X14. Whatever the category, every fallback palette follows the schema
    the prompt asks of the model: five colours, with the usages Primary,
    Secondary, Accent, Background and Text in this order, each hex a hash
    sign and six hexadecimal digits. *)
Theorem fallback_follows_schema (category : string) (n : nat) :
  exists ps,
    fst (generate_fallback_palettes uuid4 category n) = inr ps
    /\ Forall follows_schema ps.
Proof.
  unfold generate_fallback_palettes, literal_Palette, bind, ret, fresh_id.
  cbn [warm_appetite digital_trust professional_classic modern_minimal
       nature_inspired warm_sunset cool_ocean str_dict_get].
  destruct (String.eqb "Food & Beverage" category);
    [|destruct (String.eqb "Technology" category)];
    (eexists; split; [reflexivity|]);
    repeat (apply List.Forall_cons; [split; [reflexivity|repeat constructor]|]);
    apply List.Forall_nil.
Qed.

End CatalogMoreFacts.

(** ** Request handlers, further *)

Section HandlerMoreFacts.

Import Quota QuotaRuns Json Extract Catalog Gateway.
Open Scope list_scope.

Variable uuid4 : nat -> string.
Variable lim : limits.
Variable json_dumps : json -> string.
Variable py_str : json -> string.

Implicit Types (rl : gmap string user_limits).

Lemma generation_check now ip rl :
  check_rate_limit now ip "generation" rl =
    if generations (effective_limits now ip rl) <=? 0 then ((false, 0), rl)
    else ((true, generations (effective_limits now ip rl) - 1),
          <[ip := decrement Generation (effective_limits now ip rl)]> rl).
Proof. exact (check_rate_limit_eq now ip Generation rl). Qed.

Lemma revision_check now ip rl :
  check_rate_limit now ip "revision" rl =
    if revisions (effective_limits now ip rl) <=? 0 then ((false, 0), rl)
    else ((true, revisions (effective_limits now ip rl) - 1),
          <[ip := decrement Revision (effective_limits now ip rl)]> rl).
Proof. exact (check_rate_limit_eq now ip Revision rl). Qed.

(** X15. With the generation counter exhausted the handler raises the 429
    of the daily limit and nothing else happens: the dict and the count of
    identifiers are as before, whatever the request, the key and the
    provider. *)
Theorem exhausted_generation_is_refused now ip data key gc rl (n : nat) :
  generations (effective_limits now ip rl) <= 0 ->
  generate_palettes uuid4 lim now ip data key gc (rl, n)
  = (HTTPException 429 generation_limit_detail, (rl, n)).
Proof.
  intros Hle. unfold generate_palettes. rewrite generation_check.
  replace (generations (effective_limits now ip rl) <=? 0) with true by lia.
  reflexivity.
Qed.

(** X16. With the revision counter exhausted the chat handler raises the
    429 of the daily limit and the dict is as before, whatever the request,
    the key and the provider. *)
Theorem exhausted_revision_is_refused now ip data key gc rl :
  revisions (effective_limits now ip rl) <= 0 ->
  chat_with_ai json_dumps py_str now ip data key gc rl
  = (HTTPException 429 revision_limit_detail, rl).
Proof.
  intros Hle. unfold chat_with_ai. rewrite revision_check.
  replace (revisions (effective_limits now ip rl) <=? 0) with true by lia.
  reflexivity.
Qed.

Lemma parse_palette_response_ids text (n : nat) ps n' :
  parse_palette_response uuid4 lim text n = (inr ps, n') ->
  n' = (n + length ps)%nat
  /\ map palette_id ps = map uuid4 (seq n (length ps)).
Proof.
  rewrite parse_palette_response_candidates.
  destruct (candidates lim text) as [[e|items]|]; intros H.
  - discriminate.
  - apply palettes_loop_inr in H as (new & -> & -> & Hids & _).
    cbn [app]. split; [reflexivity|exact Hids].
  - injection H as <- <-. split; [cbn; lia|reflexivity].
Qed.

Lemma fallback_ids category (n : nat) :
  exists ps,
    generate_fallback_palettes uuid4 category n = (inr ps, (n + 7)%nat)
    /\ ps <> []
    /\ incl (map palette_id ps) (map uuid4 (seq n 7)).
Proof.
  replace (n + 7)%nat with (S (S (S (S (S (S (S n))))))) by lia.
  unfold generate_fallback_palettes, literal_Palette, bind, ret, fresh_id.
  cbn [warm_appetite digital_trust professional_classic modern_minimal
       nature_inspired warm_sunset cool_ocean str_dict_get].
  destruct (String.eqb "Food & Beverage" category);
    [|destruct (String.eqb "Technology" category)];
    (eexists; split; [reflexivity|]); (split; [discriminate|]);
    cbn [map seq palette_id]; intros i Hi; cbn [In] in *; tauto.
Qed.

Lemma incl_seq_window (f : nat -> string) (a b k m : nat) :
  (a <= b)%nat -> (b + k <= a + m)%nat ->
  incl (map f (seq b k)) (map f (seq a m)).
Proof.
  intros Hab Hbk i Hi. apply in_map_iff in Hi as (j & <- & Hj).
  apply in_map. apply in_seq in Hj. apply in_seq. lia.
Qed.

(** X17. The generation handler ends in a response with at least one
    palette, in the 429 of the daily limit or in the 500 of a missing key,
    and lets no exception of extraction or of the provider escape; the ids
    of the palettes of a response are identifiers drawn during the call,
    and an error draws none. *)
Theorem generation_ends_well now ip data key gc rl (n : nat) :
  match generate_palettes uuid4 lim now ip data key gc (rl, n) with
  | (Returned r, (_, n')) =>
      palettes r <> [] /\ (n <= n')%nat
      /\ incl (map palette_id (palettes r)) (map uuid4 (seq n (n' - n)))
  | (HTTPException code detail, (_, n')) =>
      n' = n
      /\ ((code = 429 /\ detail = generation_limit_detail)
          \/ (code = 500 /\ detail = key_missing_detail))
  | (Escaped _, _) => False
  end.
Proof.
  unfold generate_palettes.
  destruct (check_rate_limit now ip "generation" rl) as [[allowed remaining] rl1].
  destruct allowed; cbn [negb]; [|split; [reflexivity|left; split; reflexivity]].
  destruct (key_missing key); [split; [reflexivity|right; split; reflexivity]|].
  assert (Hfb : forall m, (n <= m)%nat ->
            match
              match generate_fallback_palettes uuid4 (business_category data) m with
              | (inr ps, n'') =>
                  (Returned {| palettes := ps; remaining_generations := remaining |},
                   (rl1, n''))
              | (inl e, n'') => (Escaped e, (rl1, n''))
              end
            with
            | (Returned r, (_, n')) =>
                palettes r <> [] /\ (n <= n')%nat
                /\ incl (map palette_id (palettes r)) (map uuid4 (seq n (n' - n)))
            | (HTTPException code detail, (_, n')) =>
                n' = n
                /\ ((code = 429 /\ detail = generation_limit_detail)
                    \/ (code = 500 /\ detail = key_missing_detail))
            | (Escaped _, _) => False
            end).
  { intros m Hm.
    destruct (fallback_ids (business_category data) m) as (ps & -> & Hne & Hincl).
    cbn [palettes]. split; [exact Hne|]. split; [lia|].
    intros i Hi. apply Hincl in Hi. revert i Hi.
    apply incl_seq_window; lia. }
  destruct (gc (generation_prompt data)) as [| |text].
  - apply Hfb. lia.
  - apply Hfb. lia.
  - pose proof (parse_palette_response_counter uuid4 lim text n) as Hcount.
    destruct (parse_palette_response uuid4 lim text n) as [[e|[|p l]] n1] eqn:Eparse;
      cbn [snd] in Hcount.
    + apply Hfb. exact Hcount.
    + apply Hfb. exact Hcount.
    + apply parse_palette_response_ids in Eparse as [-> Hids].
      cbn [palettes]. split; [discriminate|]. split; [lia|].
      replace (n + length (p :: l) - n)%nat with (length (p :: l)) by lia.
      rewrite Hids. apply incl_refl.
Qed.

(** X18. A status read after a served generation, at a time before the
    deadline, reports the [remaining_generations] of the response. *)
Theorem status_after_generation_agrees now now' ip data key gc rl (n : nat) r w' :
  generate_palettes uuid4 lim now ip data key gc (rl, n) = (Returned r, w') ->
  now' < reset_time (effective_limits now ip rl) ->
  generations_remaining (fst (get_remaining_limits now' ip (fst w')))
  = remaining_generations r.
Proof.
  unfold generate_palettes. rewrite generation_check.
  destruct (generations (effective_limits now ip rl) <=? 0); [discriminate|].
  cbn [negb]. destruct (key_missing key); [discriminate|].
  intros Hgen Hlt.
  assert (Hshape : fst w' = <[ip := decrement Generation (effective_limits now ip rl)]> rl
                   /\ remaining_generations r
                      = generations (effective_limits now ip rl) - 1).
  { destruct (gc (generation_prompt data)) as [| |text];
      [| |destruct (parse_palette_response uuid4 lim text n) as [[e|[|p l]] n1]];
      try (destruct (generate_fallback_palettes uuid4 (business_category data) _)
             as [[e'|ps] n2]; [discriminate|]);
      injection Hgen as <- <-; split; reflexivity. }
  destruct Hshape as [-> ->].
  unfold get_remaining_limits. rewrite lookup_insert_eq. cbn [decrement reset_time].
  replace (now' >=? reset_time (effective_limits now ip rl)) with false by lia.
  reflexivity.
Qed.

(** X19. One generation a window, whatever came of it: after a generation
    request that the check allowed, be it served or ended in the 500 of a
    missing key, the next generation request of the client before the
    deadline is refused with the 429, for any request, key and provider. *)
Theorem next_generation_is_refused
    now now' ip data data' key key' gc gc' rl (n : nat) :
  store_ok rl ->
  0 < generations (effective_limits now ip rl) ->
  now' < reset_time (effective_limits now ip rl) ->
  let w1 := snd (generate_palettes uuid4 lim now ip data key gc (rl, n)) in
  generate_palettes uuid4 lim now' ip data' key' gc' w1
  = (HTTPException 429 generation_limit_detail, w1).
Proof.
  intros Hok Hpos Hlt. cbv zeta.
  assert (Hw : exists n1,
             snd (generate_palettes uuid4 lim now ip data key gc (rl, n))
             = (<[ip := decrement Generation (effective_limits now ip rl)]> rl, n1)).
  { unfold generate_palettes. rewrite generation_check.
    replace (generations (effective_limits now ip rl) <=? 0) with false by lia.
    cbn [negb]. destruct (key_missing key); [eexists; reflexivity|].
    destruct (gc (generation_prompt data)) as [| |text];
      [| |destruct (parse_palette_response uuid4 lim text n) as [[e|[|p l]] n1]];
      try (destruct (generate_fallback_palettes uuid4 (business_category data) _)
             as [[e'|ps] n2]);
      eexists; reflexivity. }
  destruct Hw as [n1 ->].
  pose proof (effective_limits_ok now ip rl Hok) as [Hg _].
  assert (Hspent : generations
                     (effective_limits now' ip
                        (<[ip := decrement Generation (effective_limits now ip rl)]> rl))
                   <= 0).
  { rewrite (effective_limits_stored now' ip _ _ (lookup_insert_eq _ _ _));
      cbn [decrement generations reset_time]; lia. }
  unfold generate_palettes. rewrite generation_check.
  replace (generations
             (effective_limits now' ip
                (<[ip := decrement Generation (effective_limits now ip rl)]> rl))
           <=? 0) with true by lia.
  reflexivity.
Qed.


(** X21. How the chat handler ends: a response carries the count the dict
    holds for the client after the call; a 429 leaves the dict as it was;
    an exception escapes only when the system message could not be built. *)
Theorem chat_ends_accounted now ip data key gc rl :
  match chat_with_ai json_dumps py_str now ip data key gc rl with
  | (Returned r, rl') =>
      revisions <$> rl' !! ip = Some (remaining_revisions r)
      /\ remaining_revisions r = revisions (effective_limits now ip rl) - 1
  | (HTTPException code _, rl') => (code = 429 /\ rl' = rl) \/ code = 500
  | (Escaped e, _) => system_message json_dumps py_str data = inl e
  end.
Proof.
  unfold chat_with_ai. rewrite revision_check.
  destruct (revisions (effective_limits now ip rl) <=? 0);
    cbn [negb]; [left; split; reflexivity|].
  destruct (key_missing key); [right; reflexivity|].
  destruct (system_message json_dumps py_str data) as [e|sys]; [reflexivity|].
  destruct (gc sys (message data)); [right; reflexivity| |];
    rewrite lookup_insert_eq; split; reflexivity.
Qed.

End HandlerMoreFacts.

Section HandlerMoreWitnesses.

Import Quota QuotaRuns Json Extract Catalog Gateway.
Open Scope list_scope.

Lemma exhausted_generation_is_refused_witness :
  generate_palettes sample_uuid4 sample_limits 5 "10.0.0.1" request_with_optionals (Some "key")
    failing_provider (spent_quota, 0%nat)
  = (HTTPException 429 generation_limit_detail, (spent_quota, 0%nat)).
Proof. apply exhausted_generation_is_refused. vm_compute. discriminate. Defined.

Lemma exhausted_revision_is_refused_witness :
  chat_with_ai (fun _ => "[]") (fun _ => "") 5 "10.0.0.1" sample_chat (Some "key")
    failing_chat spent_quota
  = (HTTPException 429 revision_limit_detail, spent_quota).
Proof. apply exhausted_revision_is_refused. vm_compute. discriminate. Defined.

Lemma status_after_generation_agrees_witness :
  generations_remaining
    (fst (get_remaining_limits 5 "10.0.0.1"
            (fst (snd (generate_palettes sample_uuid4 sample_limits 0 "10.0.0.1"
                         request_with_optionals (Some "key") failing_provider
                         ((∅ : gmap string user_limits), 0%nat))))))
  = remaining_generations
      {| palettes := [with_id "uuid-0" warm_appetite]; remaining_generations := 0 |}.
Proof.
  apply (status_after_generation_agrees sample_uuid4 sample_limits 0 5 "10.0.0.1"
           request_with_optionals (Some "key") failing_provider ∅ 0%nat).
  - vm_compute. reflexivity.
  - vm_compute. reflexivity.
Defined.

Lemma next_generation_is_refused_witness :
  let w1 := snd (generate_palettes sample_uuid4 sample_limits 0 "10.0.0.1" request_with_optionals
                   None failing_provider ((∅ : gmap string user_limits), 0%nat)) in
  generate_palettes sample_uuid4 sample_limits 5 "10.0.0.1" request_without_optionals (Some "key")
    failing_provider w1
  = (HTTPException 429 generation_limit_detail, w1).
Proof.
  apply (next_generation_is_refused sample_uuid4 sample_limits 0 5 "10.0.0.1").
  - exact store_ok_empty.
  - vm_compute. reflexivity.
  - vm_compute. reflexivity.
Defined.


End HandlerMoreWitnesses.

(** ** Replies in the shape the prompt asks for *)

Section ReplyFacts.

Import Json Extract Reply.
Open Scope list_scope.
Open Scope nat_scope.

Variable uuid4 : nat -> string.
Variable lim : limits.

Lemma colors_loop_of_colors (cs : list Color) : forall acc,
  colors_loop (map json_of_color cs) acc = inr (acc ++ cs).
Proof.
  induction cs as [|c cs IH]; intros acc; cbn [map].
  - rewrite app_nil_r. reflexivity.
  - unfold json_of_color at 1. rewrite colors_loop_dict.
    cbn [str_field dict_lookup String.eqb Ascii.eqb Bool.eqb]. cbn.
    rewrite IH, <- app_assoc. destruct c. reflexivity.
Qed.

Lemma item_palette_of_palette (p : Palette) n :
  item_palette uuid4 (json_of_palette p) n = (inr (set_id (uuid4 n) p), S n).
Proof.
  unfold json_of_palette. rewrite item_palette_dict, item_colors_dict.
  cbn. rewrite colors_loop_of_colors. reflexivity.
Qed.

Lemma palettes_loop_of_palettes (ps : list Palette) : forall acc n,
  palettes_loop uuid4 (map json_of_palette ps) acc n
  = (inr (acc ++ renumber uuid4 n ps), n + length ps).
Proof.
  induction ps as [|p ps IH]; intros acc n; cbn [map palettes_loop renumber length].
  - rewrite app_nil_r, Nat.add_0_r. reflexivity.
  - unfold bind. rewrite item_palette_of_palette, IH, <- app_assoc.
    cbn [app]. f_equal. lia.
Qed.


End ReplyFacts.

Section ReplyWitnesses.

Import Json Extract Reply.
Open Scope list_scope.
Open Scope nat_scope.


Lemma palette_reads_four_keys_witness :
  item_palette sample_uuid4 (JObj [("id", JStr "given"); ("name", JStr "A")]) 0
  = item_palette sample_uuid4 (JObj [("name", JStr "A")]) 0.
Proof. apply palette_reads_four_keys; reflexivity. Defined.

End ReplyWitnesses.

(** ** Replies as text *)

Section ReplyTextFacts.

Import Json Extract Reply ReplyText.
Open Scope list_scope.
Open Scope nat_scope.

Lemma length_append (s t : string) :
  String.length (s +:+ t) = String.length s + String.length t.
Proof.
  induction s as [|c s IH]; [reflexivity|]. rewrite append_cons.
  cbn [String.length]. rewrite IH. reflexivity.
Qed.

Lemma append_nil_r (s : string) : s +:+ "" = s.
Proof.
  induction s as [|c s IH]; [reflexivity|]. rewrite append_cons, IH. reflexivity.
Qed.

Lemma skip_ws_solid t r : starts_solid t -> skip_ws (t +:+ r) = t +:+ r.
Proof.
  destruct t as [|c t]; [contradiction|]. cbn [starts_solid]. intros H.
  apply orb_false_elim in H as [H _].
  rewrite append_cons. cbn [skip_ws]. rewrite H. reflexivity.
Qed.

Lemma skip_ws_space_solid t r :
  starts_solid t -> skip_ws (String " " (t +:+ r)) = t +:+ r.
Proof. intros H. cbn [skip_ws]. change (is_ws " ") with true. cbn iota. apply skip_ws_solid, H. Qed.

Lemma plain_char_facts c :
  plain_char c = true ->
  Ascii.eqb c dquote = false /\ Ascii.eqb c backslash = false
  /\ (N_of_ascii c <? 32)%N = false.
Proof.
  unfold plain_char. intros H.
  apply andb_prop in H as [H Hb]. apply andb_prop in H as [Hn Hq].
  apply negb_true_iff in Hb, Hq. repeat split; try assumption.
  apply N.ltb_ge. apply N.leb_le. exact Hn.
Qed.

(** The string scanner on a plain str and its closing quote. *)
Lemma scanstring_plain s : plain s = true -> forall fuel r,
  String.length (s +:+ String dquote r) < fuel ->
  scanstring fuel (s +:+ String dquote r) = Parsed s r.
Proof.
  induction s as [|c s IH]; intros Hplain fuel r Hfuel.
  - destruct fuel as [|fuel]; [lia|].
    change ("" +:+ String dquote r) with (String dquote r).
    cbn [scanstring]. rewrite Ascii.eqb_refl. reflexivity.
  - cbn [plain] in Hplain. apply andb_prop in Hplain as [Hc Hs].
    apply plain_char_facts in Hc as (Hq & Hb & Hn).
    destruct fuel as [|fuel]; [lia|].
    rewrite append_cons in *. cbn [String.length] in Hfuel.
    cbn [scanstring]. rewrite Hq, Hb, Hn.
    rewrite IH by (try exact Hs; lia). reflexivity.
Qed.

Lemma quoted_scans s : plain s = true -> scans_as 0 (quoted s) (JStr s).
Proof.
  intros Hplain lim fuel depth r Hfuel _. unfold quoted in *.
  rewrite append_cons, append_assoc in *. rewrite append_cons in *.
  change ("" +:+ r) with r in *.
  destruct fuel as [|fuel]; [lia|]. cbn [String.length] in Hfuel.
  cbn [scan_once]. rewrite Ascii.eqb_refl.
  rewrite scanstring_plain by (try exact Hplain; lia). reflexivity.
Qed.

Lemma quoted_solid s : starts_solid (quoted s).
Proof. reflexivity. Qed.

(** Room for more containers does no harm. *)
Lemma scans_as_mono d d' t v : d <= d' -> scans_as d t v -> scans_as d' t v.
Proof. intros Hle Ht lim fuel depth r Hfuel Hdepth. apply Ht; lia. Qed.

Ltac lengths :=
  repeat first [rewrite length_append in * | progress cbn [String.length] in *];
  lia.

Lemma fields_last d k t v :
  plain k = true -> scans_as d t v -> starts_solid t ->
  fields_as d (k +:+ String dquote (": " +:+ t +:+ "}")) [(k, v)].
Proof.
  intros Hk Ht Hsolid lim fuel depth r Hfuel Hdepth.
  assert (E : (k +:+ String dquote (": " +:+ t +:+ "}")) +:+ r
              = k +:+ String dquote (String ":" (String " " (t +:+ String "}" r)))).
  { rewrite !append_assoc, !append_cons, !append_assoc. reflexivity. }
  rewrite E in *. clear E.
  destruct fuel as [|fuel]; [lia|]. cbn [object_loop].
  rewrite scanstring_plain by (try exact Hk; lengths).
  cbn [skip_ws]. change (is_ws ":") with false. cbn iota.
  change (negb (Ascii.eqb ":" ":")) with false. cbn iota.
  rewrite skip_ws_space_solid by exact Hsolid.
  rewrite Ht by lengths.
  cbn [skip_ws]. change (is_ws "}") with false. cbn iota.
  change (Ascii.eqb "}" "}") with true. cbn iota. reflexivity.
Qed.

Lemma fields_more d k t v tail pairs :
  plain k = true -> scans_as d t v -> starts_solid t -> fields_as d tail pairs ->
  fields_as d (k +:+ String dquote (": " +:+ t +:+ ", " +:+ String dquote tail))
            ((k, v) :: pairs).
Proof.
  intros Hk Ht Hsolid Htail lim fuel depth r Hfuel Hdepth.
  assert (E : (k +:+ String dquote (": " +:+ t +:+ ", " +:+ String dquote tail)) +:+ r
              = k +:+ String dquote
                        (String ":" (String " "
                           (t +:+ String "," (String " " (String dquote (tail +:+ r))))))).
  { rewrite !append_assoc, !append_cons, !append_assoc, !append_cons. reflexivity. }
  rewrite E in *. clear E.
  destruct fuel as [|fuel]; [lia|]. cbn [object_loop].
  rewrite scanstring_plain by (try exact Hk; lengths).
  cbn [skip_ws]. change (is_ws ":") with false. cbn iota.
  change (negb (Ascii.eqb ":" ":")) with false. cbn iota.
  rewrite skip_ws_space_solid by exact Hsolid.
  rewrite Ht by lengths.
  cbn [skip_ws]. change (is_ws ",") with false. cbn iota.
  change (Ascii.eqb "," "}") with false. change (Ascii.eqb "," ",") with true.
  cbn iota.
  change (skip_ws (String " " (String dquote (tail +:+ r))))
    with (String dquote (tail +:+ r)).
  cbn iota. rewrite Ascii.eqb_refl.
  rewrite Htail by lengths. reflexivity.
Qed.

(** An object takes one container more than its values. *)
Lemma object_open d tail pairs :
  fields_as d tail pairs ->
  scans_as (S d) (String "{" (String dquote tail)) (JObj (dict_of_pairs pairs)).
Proof.
  intros Htail lim fuel depth r Hfuel Hdepth. rewrite !append_cons in *.
  destruct fuel as [|fuel]; [lia|]. destruct depth as [|depth]; [lia|].
  cbn [scan_once].
  replace (Ascii.eqb "{" dquote) with false by reflexivity.
  change (Ascii.eqb "{" "{") with true. cbn iota.
  rewrite Ascii.eqb_refl.
  rewrite Htail by lengths. reflexivity.
Qed.

Lemma elements_last d t v : scans_as d t v -> elements_as d (t +:+ "]") [v].
Proof.
  intros Ht lim fuel depth r Hfuel Hdepth.
  assert (E : (t +:+ "]") +:+ r = t +:+ String "]" r)
    by (rewrite append_assoc; reflexivity).
  rewrite E in *. clear E.
  destruct fuel as [|fuel]; [lia|]. cbn [array_loop].
  rewrite Ht by lengths.
  cbn [skip_ws]. change (is_ws "]") with false. cbn iota.
  change (Ascii.eqb "]" "]") with true. cbn iota. reflexivity.
Qed.

Lemma elements_more d t v tail vs :
  scans_as d t v -> starts_solid tail -> elements_as d tail vs ->
  elements_as d (t +:+ ", " +:+ tail) (v :: vs).
Proof.
  intros Ht Hsolid Htail lim fuel depth r Hfuel Hdepth.
  assert (E : (t +:+ ", " +:+ tail) +:+ r
              = t +:+ String "," (String " " (tail +:+ r))).
  { rewrite !append_assoc, !append_cons. reflexivity. }
  rewrite E in *. clear E.
  destruct fuel as [|fuel]; [lia|]. cbn [array_loop].
  rewrite Ht by lengths.
  cbn [skip_ws]. change (is_ws ",") with false. cbn iota.
  change (Ascii.eqb "," "]") with false. change (Ascii.eqb "," ",") with true.
  cbn iota. fold (skip_ws (String " " (tail +:+ r))).
  rewrite skip_ws_space_solid by exact Hsolid.
  rewrite Htail by lengths. reflexivity.
Qed.

(** An array takes one container more than its elements. *)
Lemma array_open d tail vs :
  starts_solid tail -> elements_as d tail vs ->
  scans_as (S d) (String "[" tail) (JArr vs).
Proof.
  intros Hsolid Htail lim fuel depth r Hfuel Hdepth. rewrite !append_cons in *.
  destruct fuel as [|fuel]; [lia|]. destruct depth as [|depth]; [lia|].
  cbn [scan_once].
  replace (Ascii.eqb "[" dquote) with false by reflexivity.
  change (Ascii.eqb "[" "{") with false. change (Ascii.eqb "[" "[") with true.
  cbn iota. rewrite skip_ws_solid by exact Hsolid.
  destruct tail as [|c tail]; [contradiction|]. cbn [starts_solid] in Hsolid.
  apply orb_false_elim in Hsolid as [_ Hc].
  rewrite append_cons. rewrite Hc. rewrite <- append_cons.
  rewrite Htail by lengths. reflexivity.
Qed.

Lemma array_empty : scans_as 1 "[]" (JArr []).
Proof.
  intros lim fuel depth r Hfuel Hdepth.
  destruct fuel as [|fuel]; [lia|]. destruct depth as [|depth]; [lia|].
  reflexivity.
Qed.

Lemma concat_cons2 sep (x y : string) (l : list string) :
  String.concat sep (x :: y :: l) = x +:+ sep +:+ String.concat sep (y :: l).
Proof. reflexivity. Qed.

Lemma concat_solid (x : string) (l : list string) :
  starts_solid x -> starts_solid (String.concat ", " (x :: l) +:+ "]").
Proof.
  destruct x as [|c x]; [contradiction|]. intros H.
  destruct l as [|y l]; cbn [String.concat]; rewrite !append_cons; exact H.
Qed.

Lemma elements_concat d (texts : list string) (vs : list json) :
  Forall2 (scans_as d) texts vs -> Forall starts_solid texts -> texts <> [] ->
  elements_as d (String.concat ", " texts +:+ "]") vs.
Proof.
  intros Hall. induction Hall as [|x v texts vs Hx Hrest IH]; intros Hsolid Hne.
  - contradiction.
  - inversion Hsolid as [|? ? Hsx Hsrest]; subst.
    destruct texts as [|y texts].
    + inversion Hrest; subst. cbn [String.concat]. apply elements_last, Hx.
    + rewrite concat_cons2.
      replace ((x +:+ ", " +:+ String.concat ", " (y :: texts)) +:+ "]")
        with (x +:+ ", " +:+ (String.concat ", " (y :: texts) +:+ "]"))
        by (rewrite !append_assoc; reflexivity).
      apply elements_more; [exact Hx| |apply IH; [exact Hsrest|discriminate]].
      inversion Hsrest; subst. apply concat_solid. assumption.
Qed.

Lemma render_list_scans d (texts : list string) (vs : list json) :
  Forall2 (scans_as d) texts vs -> Forall starts_solid texts ->
  scans_as (S d) (render_list texts) (JArr vs).
Proof.
  intros Hall Hsolid. destruct texts as [|x texts].
  - inversion Hall; subst. apply (scans_as_mono 1); [lia|exact array_empty].
  - change (render_list (x :: texts))
      with (String "[" (String.concat ", " (x :: texts) +:+ "]")).
    apply array_open.
    + inversion Hsolid; subst. apply concat_solid. assumption.
    + apply elements_concat; [exact Hall|exact Hsolid|discriminate].
Qed.

(** The object of a colour is one container. *)
Lemma render_color_scans (c : Color) :
  plain_color c = true -> scans_as 1 (render_color c) (json_of_color c).
Proof.
  unfold plain_color. intros H.
  apply andb_prop in H as [H Hu]. apply andb_prop in H as [Hh Hn].
  assert (E : render_color c
              = String "{" (String dquote
                  ("hex" +:+ String dquote (": " +:+ quoted (color_hex c) +:+ ", "
                   +:+ String dquote
                  ("name" +:+ String dquote (": " +:+ quoted (color_name c) +:+ ", "
                   +:+ String dquote
                  ("usage" +:+ String dquote (": " +:+ quoted (color_usage c) +:+ "}")))))))).
  { unfold render_color, quoted.
    repeat first [rewrite append_assoc | rewrite append_cons]. reflexivity. }
  rewrite E.
  change (json_of_color c)
    with (JObj (dict_of_pairs [("hex", JStr (color_hex c));
                               ("name", JStr (color_name c));
                               ("usage", JStr (color_usage c))])).
  apply object_open.
  apply fields_more; [reflexivity|apply quoted_scans, Hh|apply quoted_solid|].
  apply fields_more; [reflexivity|apply quoted_scans, Hn|apply quoted_solid|].
  apply fields_last; [reflexivity|apply quoted_scans, Hu|apply quoted_solid].
Qed.

Lemma render_color_solid (c : Color) : starts_solid (render_color c).
Proof. reflexivity. Qed.

Lemma render_colors_scans (cs : list Color) :
  forallb plain_color cs = true ->
  scans_as 2 (render_list (map render_color cs)) (JArr (map json_of_color cs)).
Proof.
  intros H. apply render_list_scans.
  - induction cs as [|c cs IH]; cbn [map]; [constructor|].
    cbn [forallb] in H. apply andb_prop in H as [Hc Hcs].
    constructor; [apply render_color_scans, Hc|apply IH, Hcs].
  - clear H. induction cs as [|c cs IH]; cbn [map]; constructor;
      [apply render_color_solid|exact IH].
Qed.

Lemma render_list_solid (texts : list string) : starts_solid (render_list texts).
Proof. reflexivity. Qed.

(** The object of a palette is three containers deep: the object, the list
    of its colours, the object of a colour. *)
Lemma render_palette_scans (p : Palette) :
  plain_palette p = true -> scans_as 3 (render_palette p) (json_of_palette p).
Proof.
  unfold plain_palette. intros H.
  apply andb_prop in H as [H Hc]. apply andb_prop in H as [H Hp].
  apply andb_prop in H as [Hn Hd].
  assert (E : render_palette p
              = String "{" (String dquote
                  ("name" +:+ String dquote (": " +:+ quoted (palette_name p) +:+ ", "
                   +:+ String dquote
                  ("description" +:+ String dquote
                     (": " +:+ quoted (palette_description p) +:+ ", "
                   +:+ String dquote
                  ("psychology" +:+ String dquote
                     (": " +:+ quoted (palette_psychology p) +:+ ", "
                   +:+ String dquote
                  ("colors" +:+ String dquote
                     (": " +:+ render_list (map render_color (palette_colors p))
                      +:+ "}")))))))))).
  { unfold render_palette, quoted.
    repeat first [rewrite append_assoc | rewrite append_cons]. reflexivity. }
  rewrite E.
  change (json_of_palette p)
    with (JObj (dict_of_pairs
                  [("name", JStr (palette_name p));
                   ("description", JStr (palette_description p));
                   ("psychology", JStr (palette_psychology p));
                   ("colors", JArr (map json_of_color (palette_colors p)))])).
  assert (Hquoted : forall s, plain s = true -> scans_as 2 (quoted s) (JStr s)).
  { intros s Hs. apply (scans_as_mono 0); [lia|apply quoted_scans, Hs]. }
  apply object_open.
  apply fields_more; [reflexivity|apply Hquoted, Hn|apply quoted_solid|].
  apply fields_more; [reflexivity|apply Hquoted, Hd|apply quoted_solid|].
  apply fields_more; [reflexivity|apply Hquoted, Hp|apply quoted_solid|].
  apply fields_last;
    [reflexivity|apply render_colors_scans, Hc|apply render_list_solid].
Qed.

Lemma render_palette_solid (p : Palette) : starts_solid (render_palette p).
Proof. reflexivity. Qed.

(** The reply is four containers deep. *)
Lemma render_palettes_scans (ps : list Palette) :
  forallb plain_palette ps = true ->
  scans_as 4 (render_palettes ps) (JArr (map json_of_palette ps)).
Proof.
  intros H. apply render_list_scans.
  - induction ps as [|p ps IH]; cbn [map]; [constructor|].
    cbn [forallb] in H. apply andb_prop in H as [Hp Hps].
    constructor; [apply render_palette_scans, Hp|apply IH, Hps].
  - clear H. induction ps as [|p ps IH]; cbn [map]; constructor;
      [apply render_palette_solid|exact IH].
Qed.

(** A text that scans as a value decodes to it, when the interpreter has
    the room the value takes. *)
Lemma json_loads_scans lim d t v :
  scans_as d t v -> starts_solid t -> d <= recursion_left lim ->
  json_loads lim t = Decoded v.
Proof.
  intros Ht Hsolid Hroom. unfold json_loads.
  pose proof (skip_ws_solid t "" Hsolid) as Hws. rewrite append_nil_r in Hws.
  rewrite Hws.
  pose proof (Ht lim (fuel_for t) (recursion_left lim) "") as H.
  rewrite append_nil_r in H.
  rewrite H by (first [exact Hroom | unfold fuel_for; lia]). reflexivity.
Qed.

Variable uuid4 : nat -> string.
Variable lim : limits.

(** X23. A reply laid out the way [json.dumps] lays out a list of palettes
    is read back: for palettes whose strings hold no quote, no backslash and no
    control character, the text of the array of their objects (the keys of
    the schema, in its order), with any text before it that holds no
    opening bracket and any text after it that holds no closing bracket,
    gives these palettes, in order, with the identifiers of the draws made
    during the call, when the interpreter has room for the four containers
    the reply nests (the array, a palette, its colours, a colour). *)
Theorem rendered_reply_is_read_back pre post (ps : list Palette) (n : nat) :
  forallb plain_palette ps = true ->
  occurs "[" pre = false -> occurs "]" post = false ->
  4 <= recursion_left lim ->
  parse_palette_response uuid4 lim (pre +:+ render_palettes ps +:+ post) n
  = (inr (renumber uuid4 n ps), n + length ps).
Proof.
  intros Hplain Hpre Hpost Hroom.
  pose proof (json_loads_scans lim 4 _ _ (render_palettes_scans ps Hplain)
                (render_list_solid _) Hroom) as Hloads.
  change (render_palettes ps)
    with (String "[" (String.concat ", " (map render_palette ps)) +:+ "]") in *.
  rewrite parse_palette_response_candidates. unfold candidates.
  rewrite (search_array_found pre _ post Hpre Hpost). cbn [decoded].
  rewrite Hloads. cbn [py_iter].
  rewrite palettes_loop_of_palettes. reflexivity.
Qed.

End ReplyTextFacts.

Section ReplyTextWitnesses.

Import Json Extract Catalog Reply ReplyText.
Open Scope list_scope.
Open Scope nat_scope.

Lemma rendered_reply_is_read_back_witness :
  parse_palette_response sample_uuid4 sample_limits
    ("Here are two palettes: "
     +:+ render_palettes [with_id "a" warm_appetite; with_id "b" cool_ocean]
     +:+ " I hope they suit the brand.") 4
  = (inr (renumber sample_uuid4 4 [with_id "a" warm_appetite; with_id "b" cool_ocean]),
     4 + length [with_id "a" warm_appetite; with_id "b" cool_ocean]).
Proof.
  apply rendered_reply_is_read_back; [reflexivity|reflexivity|reflexivity|].
  cbn [recursion_left sample_limits]. lia.
Defined.

(** The text of the witness, decoded and extracted by computation. *)
Example rendered_reply_computed :
  map palette_name
    (match fst (parse_palette_response sample_uuid4 sample_limits
                  (render_palettes [with_id "a" warm_appetite; with_id "b" cool_ocean]) 0)
     with inr ps => ps | inl _ => [] end)
  = ["Warm Appetite"; "Cool Ocean"].
Proof. vm_compute. reflexivity. Qed.

End ReplyTextWitnesses.

(** ** The chat context and the identifier, further *)

Section ContextFacts.

Import Quota Json Extract Gateway Http Context.
Open Scope list_scope.

Variable json_dumps : json -> string.
Variable py_str : json -> string.



(** X25. The identifier is what the header says: a request whose first
    x-forwarded-for entry is a name without a record (non-empty, without
    comma, trimmed) is allowed a generation at the cap, whatever the peer
    of the connection is and whatever its own record holds. *)
Theorem fresh_forwarded_entry_is_allowed
    now (entry more : string) (host : option string) (rl : gmap string user_limits) :
  entry <> "" -> occurs "," entry = false -> trimmed entry ->
  rl !! entry = None ->
  check_rate_limit now
    (get_client_ip {| forwarded_for := Some (entry +:+ String "," more);
                      client_host := host |})
    "generation" rl
  = ((true, 0), <[entry := decrement Generation (fresh_limits now)]> rl).
Proof.
  intros Hne Hcomma [Hfirst Hlast] Hnew.
  assert (Hip : get_client_ip {| forwarded_for := Some (entry +:+ String "," more);
                                 client_host := host |} = entry).
  { unfold get_client_ip. cbn [forwarded_for].
    destruct (entry +:+ String "," more) as [|c rest] eqn:E.
    - destruct entry; discriminate E.
    - rewrite <- E. rewrite before_comma_append by exact Hcomma.
      unfold strip. rewrite lstrip_id by exact Hfirst. apply rstrip_id, Hlast. }
  rewrite Hip.
  pose proof (check_rate_limit_eq now entry Generation rl) as Heq.
  cbn [action_name] in Heq. rewrite Heq.
  unfold effective_limits. rewrite Hnew. reflexivity.
Qed.

End ContextFacts.

Section ContextWitnesses.

Import Quota Json Extract Gateway Http Context.
Open Scope list_scope.

Lemma fresh_forwarded_entry_is_allowed_witness :
  check_rate_limit 5
    (get_client_ip {| forwarded_for := Some ("198.51.100.9" +:+ String "," " 10.0.0.1");
                      client_host := Some "10.0.0.1" |})
    "generation" spent_quota
  = ((true, 0), <[ "198.51.100.9" := decrement Generation (fresh_limits 5) ]> spent_quota).
Proof.
  apply fresh_forwarded_entry_is_allowed.
  - discriminate.
  - reflexivity.
  - split; intros c [= <-]; reflexivity.
  - vm_compute. reflexivity.
Defined.

End ContextWitnesses.
